(** * Module analysis pipeline of the GCP Terraform MCP server

    A shallow embedding of [analyze_module]
    (src/gcp_terraform_mcp_server/handlers/terraform_registry_handlers.py)
    and of the parts of Python's [str] and [re] it relies on, followed by the
    properties of the pipeline: identifier parsing, registry failure, block
    and attribute extraction, and report rendering. *)

From Stdlib Require Import Ascii String DecimalString.
From Stdlib Require DecimalNat DecimalFacts.
From Stdlib Require Import List Arith ZArith NArith Bool Lia.
Import ListNotations.

(** ** Python strings *)

Module PyStr.

(** A Python [str] is a sequence of Unicode code points. *)
Definition char := N.
Definition str := list char.

(** A source literal (all literals of the handler are ASCII). *)
Definition lit (s : string) : str := map N_of_ascii (list_ascii_of_string s).
Arguments lit s%_string.

Definition nl : char := 10%N.      (* "\n" *)
Definition dq : char := 34%N.      (* the double quote *)
Definition slash : char := 47%N.   (* "/" *)
Definition lbrace : char := 123%N. (* "{" *)
Definition rbrace : char := 125%N. (* "}" *)
Definition eqsign : char := 61%N.  (* "=" *)

Fixpoint str_eqb (a b : str) : bool :=
  match a, b with
  | [], [] => true
  | x :: a', y :: b' => (x =? y)%N && str_eqb a' b'
  | _, _ => false
  end.


(** [Py_UNICODE_ISSPACE]: the characters that [str.strip()] removes and that
    [\s] matches in a [str] pattern. *)
Definition isspace (c : char) : bool :=
  ((9 <=? c) && (c <=? 13) || (28 <=? c) && (c <=? 32)
   || (c =? 133) || (c =? 160) || (c =? 5760)
   || (8192 <=? c) && (c <=? 8202)
   || (c =? 8232) || (c =? 8233) || (c =? 8239) || (c =? 8287)
   || (c =? 12288))%N.

(** Texts made of whitespace only, and texts in which [c] does not occur. *)
Definition whitespace (s : str) : bool := forallb isspace s.
Definition free_of (c : char) (s : str) : bool :=
  forallb (fun x => negb (x =? c)%N) s.

Fixpoint lstrip (s : str) : str :=
  match s with
  | c :: t => if isspace c then lstrip t else s
  | [] => []
  end.

Definition rstrip (s : str) : str := rev (lstrip (rev s)).

(** [s.strip()] *)
Definition strip (s : str) : str := rstrip (lstrip s).

(** [s.split(sep)] for a one-character separator: never empty, one more
    segment than there are separators. *)
Fixpoint split (sep : char) (s : str) : list str :=
  match s with
  | [] => [[]]
  | c :: t =>
      if (c =? sep)%N then [] :: split sep t
      else match split sep t with
           | seg :: segs => (c :: seg) :: segs
           | [] => [[c]]
           end
  end.

(** [sep.join(parts)] *)
Fixpoint join (sep : str) (parts : list str) : str :=
  match parts with
  | [] => []
  | [p] => p
  | p :: rest => p ++ sep ++ join sep rest
  end.

(** [s.startswith(prefix)] *)
Fixpoint startswith (s prefix : str) : bool :=
  match prefix, s with
  | [], _ => true
  | p :: prefix', c :: s' => (c =? p)%N && startswith s' prefix'
  | _ :: _, [] => false
  end.

(** [str(n)] for a non-negative [int], as an f-string renders [len(...)]. *)
Definition str_of_nat (n : nat) : str :=
  lit (NilZero.string_of_uint (Nat.to_uint n)).

End PyStr.
Import PyStr.

(** ** The fragment of [re] used by the handler

    Backtracking matching as a list of successes in priority order: the head
    of the list is the match Python's engine finds. *)

Module Re.

Inductive cset :=
| Space                 (* \s *)
| NotChar (c : char).   (* [^c] *)

Definition mem (cs : cset) (c : char) : bool :=
  match cs with
  | Space => isspace c
  | NotChar x => negb (c =? x)%N
  end.

Inductive regex :=
| Eps
| Chr (c : char)
| Plus (cs : cset)              (* greedy cs+ *)
| Cat (r1 r2 : regex)
| Grp (r : regex).              (* capturing group *)

(** A literal word of the pattern. *)
Fixpoint word (s : str) : regex :=
  match s with
  | [] => Eps
  | c :: t => Cat (Chr c) (word t)
  end.

(** One way of matching at the start of a text: the captured groups in the
    order of their opening parentheses, the text consumed, and what is left. *)
Definition mres := (list str * str * str)%type.

(** Greedy [cs+]: the longest run first, then shorter ones on backtracking. *)
Fixpoint plus_runs (cs : cset) (s : str) : list (str * str) :=
  match s with
  | c :: t =>
      if mem cs c
      then map (fun '(m, r) => (c :: m, r)) (plus_runs cs t) ++ [([c], t)]
      else []
  | [] => []
  end.

(** [stops cs t]: a run of [cs] cannot be extended into [t]. *)
Definition stops (cs : cset) (t : str) : bool :=
  match t with
  | [] => true
  | c :: _ => negb (mem cs c)
  end.

Fixpoint matches (r : regex) (s : str) : list mres :=
  match r with
  | Eps => [([], [], s)]
  | Chr c =>
      match s with
      | x :: t => if (x =? c)%N then [([], [x], t)] else []
      | [] => []
      end
  | Plus cs => map (fun '(m, t) => ([], m, t)) (plus_runs cs s)
  | Cat r1 r2 =>
      flat_map (fun '(g1, m1, t1) =>
                  map (fun '(g2, m2, t2) => (g1 ++ g2, m1 ++ m2, t2))
                      (matches r2 t1))
               (matches r1 s)
  | Grp r1 => map (fun '(g, m, t) => (m :: g, m, t)) (matches r1 s)
  end.

(** [pattern.match(s)]: the first success at the start of [s]. *)
Definition match_at (r : regex) (s : str) : option mres := hd_error (matches r s).

(** [m.group(i)], [i >= 1]. *)
Definition group (i : nat) (g : list str) : str := nth (i - 1) g [].

(** [re.search(r, s)]: the groups of the leftmost match. *)
Fixpoint search (r : regex) (s : str) : option (list str) :=
  match match_at r s with
  | Some (g, _, _) => Some g
  | None =>
      match s with
      | [] => None
      | _ :: t => search r t
      end
  end.

(** [re.findall(r, s)] for a pattern with groups: the groups of the
    non-overlapping matches, left to right; after a match the scan resumes
    where the match ended ([skip] counts the characters of the last match
    still to be passed over). *)
Fixpoint findall_from (r : regex) (skip : nat) (s : str) : list (list str) :=
  match s with
  | [] =>
      match skip, match_at r [] with
      | O, Some (g, _, _) => [g]
      | _, _ => []
      end
  | _ :: t =>
      match skip with
      | S k => findall_from r k t
      | O =>
          match match_at r s with
          | Some (g, m, _) => g :: findall_from r (length m - 1) t
          | None => findall_from r 0 t
          end
      end
  end.

Definition findall (r : regex) (s : str) : list (list str) := findall_from r 0 s.

(** No match of [r] starts inside the prefix [pre] of the text [pre ++ s]. *)
Fixpoint clear_before (r : regex) (pre s : str) : bool :=
  match pre with
  | [] => true
  | _ :: pre' =>
      match match_at r (pre ++ s) with
      | None => clear_before r pre' s
      | Some _ => false
      end
  end.

End Re.
Import Re.

(** ** The patterns of the handler *)

(** [keyword\s+Q([^Q]+)Q\s+{([^}]+)}] for [variable] and [output], where
    [Q] stands for the (escaped) double quote of the source pattern. *)
Definition block_pattern (keyword : str) : regex :=
  Cat (word keyword)
  (Cat (Plus Space)
  (Cat (Chr dq)
  (Cat (Grp (Plus (NotChar dq)))
  (Cat (Chr dq)
  (Cat (Plus Space)
  (Cat (Chr lbrace)
  (Cat (Grp (Plus (NotChar rbrace)))
       (Chr rbrace)))))))).

(** [description\s+=\s+Q([^Q]+)Q] *)
Definition description_pattern : regex :=
  Cat (word (lit "description"))
  (Cat (Plus Space)
  (Cat (Chr eqsign)
  (Cat (Plus Space)
  (Cat (Chr dq)
  (Cat (Grp (Plus (NotChar dq)))
       (Chr dq)))))).

(** [attr\s+=\s+([^\n]+)] for [type], [default] and [value]. *)
Definition line_pattern (attr : str) : regex :=
  Cat (word attr)
  (Cat (Plus Space)
  (Cat (Chr eqsign)
  (Cat (Plus Space)
       (Grp (Plus (NotChar nl)))))).

(** ** Shapes of source text

    The texts the three patterns are written for, used to state what is
    extracted from them. *)

Definition nonempty (s : str) : bool :=
  match s with
  | [] => false
  | _ :: _ => true
  end.

(** [keyword "name" { body }] *)
Definition block_text (keyword ws1 name ws2 body : str) : str :=
  keyword ++ ws1 ++ [dq] ++ name ++ [dq] ++ ws2 ++ [lbrace] ++ body ++ [rbrace].

Definition block_shape (ws1 name ws2 body : str) : bool :=
  nonempty ws1 && whitespace ws1 && nonempty name && free_of dq name
  && nonempty ws2 && whitespace ws2 && nonempty body && free_of rbrace body.

(** [description = "text"] *)
Definition description_text (ws1 ws2 text : str) : str :=
  lit "description" ++ ws1 ++ [eqsign] ++ ws2 ++ [dq] ++ text ++ [dq].

Definition description_shape (ws1 ws2 text : str) : bool :=
  nonempty ws1 && whitespace ws1 && nonempty ws2 && whitespace ws2
  && nonempty text && free_of dq text.

(** [attr = value] *)
Definition line_text (attr ws1 ws2 value : str) : str :=
  attr ++ ws1 ++ [eqsign] ++ ws2 ++ value.

Definition line_shape (ws1 ws2 value : str) : bool :=
  nonempty ws1 && whitespace ws1 && nonempty ws2 && whitespace ws2
  && nonempty value && free_of nl value.


(** ** Outcomes, effects and the outside world *)

(** What a Python expression evaluates to: a value, or an exception of
    class [Exception] whose [str(e)] is [e]. What is raised outside of that
    class ([asyncio.CancelledError], [KeyboardInterrupt]) passes through the
    handlers' [except Exception] clauses and is not a [result]: the
    properties below are about calls that are not cancelled. *)
Inductive result (A : Type) : Type :=
| Ok (a : A)
| Raised (e : str).
Arguments Ok {A} a.
Arguments Raised {A} e.

(** The observable effects of one call, in the order they happen. *)
Inductive event :=
| HttpGet (url : str)                      (* client.get(url) *)
| MkTempDir                                (* entering TemporaryDirectory() *)
| WriteFile (name : str) (content : str)   (* a file of the scratch directory *)
| SubprocessRun (cmd : list str)           (* subprocess.run(cmd, cwd=temp_dir) *)
| RmTempDir.                               (* leaving TemporaryDirectory() *)

(** [httpx.Response]: [json] is the outcome of lines 151-152, parsing the
    body and asking the document for a member: the registry's details
    document, an object with its string-valued members, or what is raised by
    [response.json()] on a body that does not parse and by [details.get] on
    a document that is not an object. *)
Record Response := {
  status_code : Z;
  text : str;
  json : result (list (str * str))
}.

(** [subprocess.CompletedProcess], the members the handler reads. *)
Record CompletedProcess := {
  returncode : Z;
  stderr : str
}.

(** A file as [open(path, "r").read()] sees it: its text, or an exception
    (a directory of that name, bytes that do not decode, no permission). *)
Inductive file_node :=
| Readable (content : str)
| Unreadable (err : str).

(** An entry of [.terraform/modules]. *)
Inductive dir_entry :=
| RegularFile
| Directory (files : list (str * file_node)).

(** [.terraform/modules] in the scratch directory once the subprocess has
    run: its entries in [os.listdir] order, or the [OSError] of [os.listdir]
    when there is no such directory. *)
Definition modules_tree := result (list (str * dir_entry)).

Record World := {
  http_get : str -> result Response;
  (* the command, the main.tf it finds in its working directory *)
  subprocess_run : list str -> str -> result (CompletedProcess * modules_tree)
}.

(** Computations that log their effects and may raise. *)
Definition M (A : Type) : Type := (list event * result A)%type.

Definition ret {A} (a : A) : M A := ([], Ok a).

Definition bind {A B} (m : M A) (f : A -> M B) : M B :=
  match m with
  | (t, Ok a) => let '(t', r) := f a in (t ++ t', r)
  | (t, Raised e) => (t, Raised e)
  end.

Definition perform {A} (ev : event) (r : result A) : M A := ([ev], r).

Definition lift {A} (r : result A) : M A := ([], r).

Declare Scope py_scope.
Delimit Scope py_scope with py.
Notation "x <- m ;; k" := (bind m (fun x => k))
  (at level 100, m at next level, right associativity) : py_scope.
Notation "' p <- m ;; k" := (bind m (fun p => k))
  (at level 100, p pattern, m at next level, right associativity) : py_scope.

(** [with tempfile.TemporaryDirectory() as temp_dir: body]: the directory is
    removed however the body is left. Creating the directory is taken to
    succeed. *)
Definition with_tempdir {A} (body : M A) : M A :=
  let '(t, r) := body in (MkTempDir :: t ++ [RmTempDir], r).

(** ** Dictionaries with string values *)

Definition dict := list (str * str).

(** [d[k] = v] *)
Fixpoint dict_set (k v : str) (d : dict) : dict :=
  match d with
  | [] => [(k, v)]
  | (k', v') :: rest =>
      if str_eqb k' k then (k', v) :: rest else (k', v') :: dict_set k v rest
  end.

(** [d.get(k)] *)
Fixpoint dict_lookup (k : str) (d : dict) : option str :=
  match d with
  | [] => None
  | (k', v) :: rest => if str_eqb k' k then Some v else dict_lookup k rest
  end.

(** [d.get(k, default)] *)
Definition dict_get (k : str) (d : dict) (default : str) : str :=
  match dict_lookup k d with
  | Some v => v
  | None => default
  end.

(** ** The scratch directory *)

Fixpoint lookup {A} (name : str) (entries : list (str * A)) : option A :=
  match entries with
  | [] => None
  | (n, a) :: rest => if str_eqb n name then Some a else lookup name rest
  end.

(** [os.path.exists(os.path.join(modules_dir, d))] *)
Definition dir_exists (tree : modules_tree) (d : str) : bool :=
  match tree with
  | Ok entries => match lookup d entries with Some _ => true | None => false end
  | Raised _ => false
  end.

(** [os.listdir(modules_dir)] *)
Definition listdir (tree : modules_tree) : result (list str) :=
  match tree with
  | Ok entries => Ok (map fst entries)
  | Raised e => Raised e
  end.

(** The file [name] of the entry [d] of the modules directory, if there is
    one ([os.path.exists] is false below a regular file or a missing entry). *)
Definition file_at (tree : modules_tree) (d name : str) : option file_node :=
  match tree with
  | Ok entries =>
      match lookup d entries with
      | Some (Directory files) => lookup name files
      | _ => None
      end
  | Raised _ => None
  end.

(** [with open(path, "r") as f: f.read()] *)
Definition read_file (f : file_node) : result str :=
  match f with
  | Readable content => Ok content
  | Unreadable err => Raised err
  end.

(** ** The handler *)

Record ModuleData := {
  inputs : list dict;
  outputs : list dict;
  resources : list dict;
  readme : str
}.

(** The two shapes of [metadata] the handler builds. *)
Inductive Metadata :=
| Failure (error : str)
    (* {"success": False, "error": error} *)
| Success (module_id version : str) (module_data : ModuleData).
    (* {"success": True, "module_id": .., "version": .., "module_data": ..} *)

Definition success (m : Metadata) : bool :=
  match m with
  | Failure _ => false
  | Success _ _ _ => true
  end.

Record MCPResponse := {
  content : str;
  metadata : Metadata
}.

Definition details_url (namespace name provider : str) : str :=
  lit "https://registry.terraform.io/v1/modules/"
  ++ namespace ++ [slash] ++ name ++ [slash] ++ provider.

(** The manifest written to [main.tf]. *)
Definition manifest (namespace name provider latest_version : str) : str :=
  [nl] ++ lit "module " ++ [dq] ++ lit "analyzed_module" ++ [dq] ++ lit " {" ++ [nl]
  ++ lit "  source  = " ++ [dq]
  ++ namespace ++ [slash] ++ name ++ [slash] ++ provider ++ [dq] ++ [nl]
  ++ lit "  version = " ++ [dq] ++ latest_version ++ [dq] ++ [nl]
  ++ lit "}" ++ [nl].

(** Lines 183-190: the conventional path, else the first entry of the
    modules directory whose name starts with the reference name; when the
    scan finds none, [module_dir] keeps the conventional path. *)
Definition find_module_dir (tree : modules_tree) : result str :=
  let module_dir := lit "analyzed_module" in
  if negb (dir_exists tree module_dir) then
    match listdir tree with
    | Raised e => Raised e
    | Ok names =>
        match find (fun d => startswith d (lit "analyzed_module")) names with
        | Some d => Ok d
        | None => Ok module_dir
        end
    end
  else Ok module_dir.

(** The body of the loop over [var_blocks] (lines 207-225). *)
Definition variable_of_block (name block : str) : dict :=
  let variable := [(lit "name", name)] in
  let variable :=
    match search description_pattern block with
    | Some desc_match => dict_set (lit "description") (group 1 desc_match) variable
    | None => variable
    end in
  let variable :=
    match search (line_pattern (lit "type")) block with
    | Some type_match => dict_set (lit "type") (strip (group 1 type_match)) variable
    | None => variable
    end in
  let variable :=
    match search (line_pattern (lit "default")) block with
    | Some default_match =>
        dict_set (lit "default") (strip (group 1 default_match)) variable
    | None => variable
    end in
  variable.

(** The body of the loop over [out_blocks] (lines 235-248). *)
Definition output_of_block (name block : str) : dict :=
  let output := [(lit "name", name)] in
  let output :=
    match search description_pattern block with
    | Some desc_match => dict_set (lit "description") (group 1 desc_match) output
    | None => output
    end in
  let output :=
    match search (line_pattern (lit "value")) block with
    | Some value_match => dict_set (lit "value") (strip (group 1 value_match)) output
    | None => output
    end in
  output.

(** What the loops store for an attribute of a block: the group of the
    description pattern as it is, the group of a line pattern stripped. *)
Definition description_of (block : str) : option str :=
  option_map (group 1) (search description_pattern block).

Definition line_value (attr block : str) : option str :=
  option_map (fun m => strip (group 1 m)) (search (line_pattern attr) block).

(** [re.findall] with two groups gives pairs, which the loops unpack. *)
Definition blocks (keyword content : str) : list (str * str) :=
  map (fun g => (group 1 g, group 2 g)) (findall (block_pattern keyword) content).

(** Lines 199-225. *)
Definition extract_inputs (tree : modules_tree) (module_dir : str)
    (module_data : ModuleData) : M ModuleData :=
  match file_at tree module_dir (lit "variables.tf") with
  | Some f =>
      (content <- lift (read_file f) ;;
       let var_blocks := blocks (lit "variable") content in
       ret {| inputs := inputs module_data
                          ++ map (fun '(name, block) => variable_of_block name block)
                                 var_blocks;
              outputs := outputs module_data;
              resources := resources module_data;
              readme := readme module_data |})%py
  | None => ret module_data
  end.

(** Lines 227-248. *)
Definition extract_outputs (tree : modules_tree) (module_dir : str)
    (module_data : ModuleData) : M ModuleData :=
  match file_at tree module_dir (lit "outputs.tf") with
  | Some f =>
      (content <- lift (read_file f) ;;
       let out_blocks := blocks (lit "output") content in
       ret {| inputs := inputs module_data;
              outputs := outputs module_data
                           ++ map (fun '(name, block) => output_of_block name block)
                                  out_blocks;
              resources := resources module_data;
              readme := readme module_data |})%py
  | None => ret module_data
  end.

(** Lines 250-254. *)
Definition read_readme (tree : modules_tree) (module_dir : str)
    (module_data : ModuleData) : M ModuleData :=
  match file_at tree module_dir (lit "README.md") with
  | Some f =>
      (content <- lift (read_file f) ;;
       ret {| inputs := inputs module_data;
              outputs := outputs module_data;
              resources := resources module_data;
              readme := content |})%py
  | None => ret module_data
  end.

(** Lines 182-254: locating the module directory and reading its files. *)
Definition extraction (tree : modules_tree) : M ModuleData :=
  (module_dir <- lift (find_module_dir tree) ;;
   let module_data :=
     {| inputs := []; outputs := []; resources := []; readme := [] |} in
   module_data <- extract_inputs tree module_dir module_data ;;
   module_data <- extract_outputs tree module_dir module_data ;;
   read_readme tree module_dir module_data)%py.

Definition terraform_init : list str :=
  [lit "terraform"; lit "init"; lit "-get=true"].

(** Lines 155-254, the [with] block: it is left early with a response when
    the download fails, and otherwise with the collected [module_data].
    Writing main.tf into the directory just created is taken to succeed. *)
Definition materialize_and_extract (w : World)
    (namespace name provider latest_version : str)
    : M (MCPResponse + ModuleData) :=
  with_tempdir
    (let cmd := terraform_init in
     let main_tf := manifest namespace name provider latest_version in
     _ <- perform (WriteFile (lit "main.tf") main_tf) (Ok tt) ;;
     '(result, tree) <- perform (SubprocessRun cmd) (subprocess_run w cmd main_tf) ;;
     if negb (returncode result =? 0)%Z then
       ret (inl {| content := lit "Error downloading module: " ++ stderr result;
                   metadata := Failure (stderr result) |})
     else
       module_data <- extraction tree ;;
       ret (inr module_data))%py.

Definition readme_limit : nat := 2000.

(** Lines 285-288. *)
Definition truncate_readme (readme : str) : str :=
  if readme_limit <? length readme
  then firstn readme_limit readme
       ++ lit "..." ++ [nl; nl] ++ lit "(README truncated due to length)"
  else readme.

(** Lines 256-290: the list [formatted_output], built by appending. *)
Definition formatted_output (module_id latest_version : str)
    (module_data : ModuleData) : list str :=
  let out := [lit "# Module Analysis: " ++ module_id ++ [nl]] in
  let out := out ++ [lit "**Version:** " ++ latest_version] in
  let out := out ++ [lit "**Registry Link:** https://registry.terraform.io/modules/"
                     ++ module_id ++ [nl]] in
  let out := out ++ [lit "## Inputs (" ++ str_of_nat (length (inputs module_data))
                     ++ lit ")" ++ [nl]] in
  let out :=
    fold_left
      (fun out input_var =>
         let name := dict_get (lit "name") input_var [] in
         let desc := dict_get (lit "description") input_var
                              (lit "No description provided") in
         let var_type := dict_get (lit "type") input_var (lit "any") in
         let default := dict_get (lit "default") input_var (lit "no default") in
         let out := out ++ [lit "### " ++ name] in
         let out := out ++ [lit "- **Description:** " ++ desc] in
         let out := out ++ [lit "- **Type:** " ++ var_type] in
         out ++ [lit "- **Default:** " ++ default ++ [nl]])
      (inputs module_data) out in
  let out := out ++ [lit "## Outputs (" ++ str_of_nat (length (outputs module_data))
                     ++ lit ")" ++ [nl]] in
  let out :=
    fold_left
      (fun out output_var =>
         let name := dict_get (lit "name") output_var [] in
         let desc := dict_get (lit "description") output_var
                              (lit "No description provided") in
         let out := out ++ [lit "### " ++ name] in
         out ++ [lit "- **Description:** " ++ desc ++ [nl]])
      (outputs module_data) out in
  let readme := truncate_readme (readme module_data) in
  out ++ [lit "## README" ++ [nl; nl] ++ readme].

(** Lines 124-130: the response to an identifier that is turned down. *)
Definition invalid_id_response (module_id : str) : MCPResponse :=
  {| content := lit "Invalid module ID: " ++ module_id
                ++ lit ". Format should be namespace/name/provider.";
     metadata := Failure (lit "Invalid module ID: " ++ module_id) |}.

(** Lines 304-310: the response of the [except] clause. *)
Definition error_response (e : str) : MCPResponse :=
  {| content := lit "An error occurred while analyzing the Terraform module: " ++ e;
     metadata := Failure e |}.

(** Lines 121-300, the body of the [try]. *)
Definition analyze_module_try (w : World) (module_id : str) : M MCPResponse :=
  let parts := split slash module_id in
  if negb (length parts =? 3) then ret (invalid_id_response module_id)
  else
    match parts with
    | [namespace; name; provider] =>
        (let url := details_url namespace name provider in
         details_response <- perform (HttpGet url) (http_get w url) ;;
         if negb (status_code details_response =? 200)%Z then
           ret {| content := lit "Error fetching module details: "
                             ++ text details_response;
                  metadata := Failure (text details_response) |}
         else
           details <- lift (json details_response) ;;
           let latest_version := dict_get (lit "version") details [] in
           r <- materialize_and_extract w namespace name provider latest_version ;;
           match r with
           | inl response => ret response
           | inr module_data =>
               ret {| content :=
                        join [nl] (formatted_output module_id latest_version
                                                    module_data);
                      metadata := Success module_id latest_version module_data |}
           end)%py
    | _ => lift (Raised (lit "not enough values to unpack"))
    end.

(** [analyze_module]: the response, with the effects performed on the way.
    Lines 302-310: an exception of class [Exception] that the body raises
    becomes a failure response. *)
Definition analyze_module (w : World) (module_id : str)
    : list event * MCPResponse :=
  let '(trace, r) := analyze_module_try w module_id in
  (trace,
   match r with
   | Ok response => response
   | Raised e => error_response e
   end).

(** ** The outcome in the specification's words

    Definitions that follow the specification, to be compared with what the
    handler computes. *)

(** The five effects of a call that gets to the download. *)
Definition full_trace (namespace name provider version : str) : list event :=
  [HttpGet (details_url namespace name provider); MkTempDir;
   WriteFile (lit "main.tf") (manifest namespace name provider version);
   SubprocessRun terraform_init; RmTempDir].

(** The blocks of a file of the module directory; none when it is missing. *)
Definition file_blocks (keyword : str) (tree : modules_tree) (d name : str)
    : list (str * str) :=
  match file_at tree d name with
  | Some (Readable content) => blocks keyword content
  | _ => []
  end.

(** The text of a file of the module directory; empty when it is missing. *)
Definition file_text (tree : modules_tree) (d name : str) : str :=
  match file_at tree d name with
  | Some (Readable content) => content
  | _ => []
  end.

(** ModuleData: one descriptor per discovered block, in order, and the
    README. *)
Definition spec_module_data (tree : modules_tree) (d : str) : ModuleData :=
  {| inputs := map (fun '(name, block) => variable_of_block name block)
                   (file_blocks (lit "variable") tree d (lit "variables.tf"));
     outputs := map (fun '(name, block) => output_of_block name block)
                    (file_blocks (lit "output") tree d (lit "outputs.tf"));
     resources := [];
     readme := file_text tree d (lit "README.md") |}.

(** A file that is missing or can be read. *)
Definition readable_or_missing (f : option file_node) : bool :=
  match f with
  | Some (Unreadable _) => false
  | _ => true
  end.

Definition files_readable (tree : modules_tree) (d : str) : bool :=
  readable_or_missing (file_at tree d (lit "variables.tf"))
  && readable_or_missing (file_at tree d (lit "outputs.tf"))
  && readable_or_missing (file_at tree d (lit "README.md")).

Definition default_to (default : str) (o : option str) : str :=
  match o with
  | Some v => v
  | None => default
  end.

(** The subsection of an input: name, description, type, default. *)
Definition input_section (input_var : dict) : list str :=
  [lit "### " ++ default_to [] (dict_lookup (lit "name") input_var);
   lit "- **Description:** "
   ++ default_to (lit "No description provided")
                 (dict_lookup (lit "description") input_var);
   lit "- **Type:** " ++ default_to (lit "any") (dict_lookup (lit "type") input_var);
   lit "- **Default:** "
   ++ default_to (lit "no default") (dict_lookup (lit "default") input_var)
   ++ [nl]].

(** The subsection of an output: name, description. *)
Definition output_section (output_var : dict) : list str :=
  [lit "### " ++ default_to [] (dict_lookup (lit "name") output_var);
   lit "- **Description:** "
   ++ default_to (lit "No description provided")
                 (dict_lookup (lit "description") output_var)
   ++ [nl]].

(** The README section: the first 2000 characters and the truncation
    suffix when the README is longer, the README as it is otherwise. *)
Definition spec_readme_section (r : str) : str :=
  if 2000 <? length r
  then firstn 2000 r ++ lit "..." ++ [nl; nl] ++ lit "(README truncated due to length)"
  else r.

(** The layout of the report, in fixed order. *)
Definition spec_report (module_id version : str) (module_data : ModuleData)
    : list str :=
  [lit "# Module Analysis: " ++ module_id ++ [nl];
   lit "**Version:** " ++ version;
   lit "**Registry Link:** https://registry.terraform.io/modules/" ++ module_id ++ [nl]]
  ++ [lit "## Inputs (" ++ str_of_nat (length (inputs module_data)) ++ lit ")" ++ [nl]]
  ++ flat_map input_section (inputs module_data)
  ++ [lit "## Outputs (" ++ str_of_nat (length (outputs module_data)) ++ lit ")" ++ [nl]]
  ++ flat_map output_section (outputs module_data)
  ++ [lit "## README" ++ [nl; nl] ++ spec_readme_section (readme module_data)].

(** ** Example texts *)

(** The block of the specification's extraction example: [variable "foo" {],
    [ description = "d"], [}], each line ended by a newline. *)
Definition foo_source : str :=
  lit "variable " ++ [dq] ++ lit "foo" ++ [dq] ++ lit " {" ++ [nl]
  ++ lit " description = " ++ [dq] ++ lit "d" ++ [dq] ++ [nl]
  ++ lit "}" ++ [nl].

(** The line [ description = "d"] with its newline. *)
Definition foo_description_line : str :=
  lit " description = " ++ [dq] ++ lit "d" ++ [dq] ++ [nl].

(** [keyword "name" {}] *)
Definition empty_block_text (keyword ws1 name ws2 : str) : str :=
  keyword ++ ws1 ++ [dq] ++ name ++ [dq] ++ ws2 ++ [lbrace; rbrace].

(** A variable with a [validation] sub-block. *)
Definition port_before : str := [nl] ++ lit "  type = number" ++ [nl] ++ lit "  validation ".
Definition port_inner : str := [nl] ++ lit "    condition = var.port > 0" ++ [nl] ++ lit "  ".
Definition port_source : str :=
  (lit "# listening port" ++ [nl])
  ++ block_text (lit "variable") (lit " ") (lit "port") (lit " ")
                (port_before ++ [lbrace] ++ port_inner)
  ++ [nl] ++ [rbrace] ++ [nl].




(** A body with a list as default. *)
Definition default_list_body : str :=
  ([nl] ++ lit "  ")
  ++ line_text (lit "default") (lit " ") (lit " ") (lit "[1,2,3]") ++ [nl].

(** ** Example worlds *)

(** A registry that answers 404 to every request. *)
Definition registry_404 : World :=
  {| http_get := fun _ =>
       Ok {| status_code := 404;
             text := lit "{errors:[Not Found]}";
             json := Ok [] |};
     subprocess_run := fun _ _ => Raised (lit "terraform: not found") |}.

(** A registry that knows version 1.2.0 and a download that exits with 0 and
    leaves [tree] behind. *)
Definition world_with (tree : modules_tree) : World :=
  {| http_get := fun _ =>
       Ok {| status_code := 200;
             text := lit "{version:1.2.0}";
             json := Ok [(lit "version", lit "1.2.0")] |};
     subprocess_run := fun _ _ => Ok ({| returncode := 0; stderr := [] |}, tree) |}.

(** The download left no modules directory at all. *)
Definition no_modules_dir : modules_tree :=
  Raised (lit "[Errno 2] No such file or directory: .terraform/modules").

(** The module was fetched, but its README is not valid UTF-8. *)
Definition undecodable_readme : modules_tree :=
  Ok [(lit "modules.json", RegularFile);
      (lit "analyzed_module",
       Directory
         [(lit "variables.tf", Readable foo_source);
          (lit "README.md",
           Unreadable (lit "utf-8 codec cannot decode byte 0xe9 in position 3"))])].

(** The download left a modules directory without the module. *)
Definition module_missing : modules_tree :=
  Ok [(lit "modules.json", RegularFile)].

(** The module's variables.tf holds one variable with an empty body. *)
Definition lone_empty_block_tree : modules_tree :=
  Ok [(lit "analyzed_module",
       Directory
         [(lit "variables.tf",
           Readable (empty_block_text (lit "variable") (lit " ") (lit "x")
                                      (lit " ")))])].

(** A README of 2001 characters. *)
Definition long_readme : str := repeat 120%N 2001.

Definition long_readme_tree : modules_tree :=
  Ok [(lit "analyzed_module", Directory [(lit "README.md", Readable long_readme)])].

(** The end-to-end scenario of the specification: one variable [region] with
    description, type and default, one output [bucket_name] with a
    description, and a README of 50 characters. *)
Definition scenario_variables : str :=
  block_text (lit "variable") (lit " ") (lit "region") (lit " ")
    ([nl] ++ lit "  description = " ++ [dq] ++ lit "Region of the bucket" ++ [dq] ++ [nl]
     ++ lit "  type        = string" ++ [nl]
     ++ lit "  default     = " ++ [dq] ++ lit "us-central1" ++ [dq] ++ [nl])
  ++ [nl].

Definition scenario_outputs : str :=
  block_text (lit "output") (lit " ") (lit "bucket_name") (lit " ")
    ([nl] ++ lit "  description = " ++ [dq] ++ lit "Name of the bucket" ++ [dq] ++ [nl]
     ++ lit "  value       = google_storage_bucket.this.name" ++ [nl])
  ++ [nl].

Definition scenario_readme : str :=
  lit "# Bucket module" ++ [nl] ++ lit "Creates one bucket in a chosen region.".

Definition scenario_tree : modules_tree :=
  Ok [(lit "modules.json", RegularFile);
      (lit "analyzed_module",
       Directory [(lit "variables.tf", Readable scenario_variables);
                  (lit "outputs.tf", Readable scenario_outputs);
                  (lit "README.md", Readable scenario_readme)])].

(** ** Module search

    [search_modules], lines 18-105 of the same file. *)

Module Search.

(** The members of a module object of the registry: strings, and the
    download count. *)
Inductive jval :=
| JStr (s : str)
| JInt (n : Z).

Definition module_entry := list (str * jval).

(** [str(n)] for an [int]. *)
Definition str_of_Z (n : Z) : str := lit (NilZero.string_of_int (Z.to_int n)).

(** How an f-string renders a member. *)
Definition py_str (v : jval) : str :=
  match v with
  | JStr s => s
  | JInt n => str_of_Z n
  end.

(** [if v:] *)
Definition truthy (v : jval) : bool :=
  match v with
  | JStr s => nonempty s
  | JInt n => negb (n =? 0)%Z
  end.

(** [module.get(k, default)] *)
Fixpoint get (k : str) (module : module_entry) (default : jval) : jval :=
  match module with
  | [] => default
  | (k', v) :: rest => if str_eqb k' k then v else get k rest default
  end.

(** [httpx.Response] of the search endpoint: [json] is the outcome of lines
    54-55, parsing the body and asking the document for its [modules]
    member: the list of module objects, [None] when the document has no such
    member, or what is raised by [response.json()] on a body that does not
    parse and by [data.get] on a document that is not an object. *)
Record Response := {
  status_code : Z;
  text : str;
  json : result (option (list module_entry))
}.

(** [client.get(url, params=params)] *)
Inductive request :=
| Get (url : str) (params : dict).

Record World := {
  http_get : str -> dict -> result Response
}.

Inductive Metadata :=
| Failure (error : str)
    (* {"success": False, "error": error} *)
| Success (count : nat) (modules : list module_entry).
    (* {"success": True, "count": count, "modules": modules} *)

Definition success (m : Metadata) : bool :=
  match m with
  | Failure _ => false
  | Success _ _ => true
  end.

Record MCPResponse := {
  content : str;
  metadata : Metadata
}.

Definition search_url : str := lit "https://registry.terraform.io/v1/modules/search".


Definition render_provider (provider : option str) : str :=
  match provider with
  | Some p => p
  | None => lit "None"
  end.

(** Lines 34-37. *)
Definition search_params (query : str) (provider : option str) : dict :=
  let params := [(lit "q", query)] in
  match provider with
  | Some p => if nonempty p then dict_set (lit "provider") p params else params
  | None => params
  end.

(** Lines 68-86: the list [formatted_output], built by appending. *)
Definition formatted_output (query : str) (provider : option str)
    (modules : list module_entry) : list str :=
  let out := [lit "# Terraform Module Search Results" ++ [nl]] in
  let out := out ++ [lit "Found " ++ str_of_nat (length modules)
                     ++ lit " modules matching '" ++ query
                     ++ lit "' for provider '" ++ render_provider provider
                     ++ lit "':" ++ [nl]] in
  fold_left
    (fun out module =>
       let name := get (lit "name") module (JStr []) in
       let namespace := get (lit "namespace") module (JStr []) in
       let provider_name := get (lit "provider") module (JStr []) in
       let description := get (lit "description") module (JStr []) in
       let downloads := get (lit "downloads") module (JInt 0) in
       let version := get (lit "version") module (JStr []) in
       let out := out ++ [lit "## " ++ py_str namespace ++ [slash] ++ py_str name
                          ++ [slash] ++ py_str provider_name] in
       let out := if truthy description
                  then out ++ [py_str description ++ [nl]]
                  else out in
       let out := out ++ [lit "- **Version:** " ++ py_str version] in
       let out := out ++ [lit "- **Downloads:** " ++ py_str downloads] in
       let out := out ++ [lit "- **Source:** terraform-" ++ py_str provider_name
                          ++ lit "-" ++ py_str name] in
       out ++ [lit "- **URL:** https://registry.terraform.io/modules/"
               ++ py_str namespace ++ [slash] ++ py_str name ++ [slash]
               ++ py_str provider_name ++ [slash] ++ [nl]])
    modules out.

(** Lines 97-105: the response of the [except] clause. *)
Definition error_response (e : str) : MCPResponse :=
  {| content := lit "An error occurred while searching for Terraform modules: " ++ e;
     metadata := Failure e |}.

(** [search_modules]: the response, with the request made on the way; an
    exception of class [Exception] becomes a failure response (lines
    97-105). *)
Definition search_modules (w : World) (query : str) (provider : option str)
    : list request * MCPResponse :=
  let url := search_url in
  let params := search_params query provider in
  ([Get url params],
   match http_get w url params with
   | Raised e => error_response e
   | Ok response =>
       if negb (status_code response =? 200)%Z then
         {| content := lit "Error searching for modules: " ++ text response;
            metadata := Failure (text response) |}
       else
         match json response with
         | Raised e => error_response e
         | Ok data =>
             let modules := match data with Some m => m | None => [] end in
             match modules with
             | [] =>
                 {| content := lit "No modules found for query: '" ++ query
                               ++ lit "' with provider: '" ++ render_provider provider
                               ++ lit "'";
                    metadata := Success 0 [] |}
             | _ :: _ =>
                 {| content := join [nl] (formatted_output query provider modules);
                    metadata := Success (length modules) modules |}
             end
         end
   end).

End Search.

(** ** Further shapes and example data *)

(** Blocks written one after the other, each followed by [sep]; a block is
    given by the whitespace after the keyword, its name, the whitespace
    before the brace, and its body. *)
Definition block_item := (str * str * str * str)%type.

Definition item_shape (b : block_item) : bool :=
  let '(ws1, name, ws2, body) := b in block_shape ws1 name ws2 body.

Definition item_entry (b : block_item) : str * str :=
  let '(_, name, _, body) := b in (name, body).

Fixpoint blocks_text (keyword sep : str) (bs : list block_item) : str :=
  match bs with
  | [] => []
  | (ws1, name, ws2, body) :: rest =>
      block_text keyword ws1 name ws2 body ++ sep ++ blocks_text keyword sep rest
  end.

(** The five shapes of a failure message and the success response. *)
Definition failure_with (prefix e : str) (r : MCPResponse) : Prop :=
  content r = prefix ++ e /\ metadata r = Failure e.


Definition search_world (status : Z) (data : option (list Search.module_entry))
    : Search.World :=
  {| Search.http_get := fun _ _ =>
       Ok {| Search.status_code := status;
             Search.text := lit "body";
             Search.json := Ok data |} |}.

(** A download that fails. *)
Definition failed_download : World :=
  {| http_get := fun _ =>
       Ok {| status_code := 200; text := lit "{version:1.2.0}";
             json := Ok [(lit "version", lit "1.2.0")] |};
     subprocess_run := fun _ _ =>
       Ok ({| returncode := 1; stderr := lit "Error: Module not found" |},
           no_modules_dir) |}.

(** ** The report as a text

    The rendered report written out character by character, without the
    handler's own joining and number formatting. *)

Definition is_digit (c : char) : bool := ((48 <=? c) && (c <=? 57))%N.

(** The number a run of decimal digits stands for. *)
Fixpoint decimal_value_from (acc : nat) (ds : str) : nat :=
  match ds with
  | [] => acc
  | c :: t => decimal_value_from (10 * acc + N.to_nat (c - 48)) t
  end.

Definition decimal_value (ds : str) : nat := decimal_value_from 0 ds.

(** Digits only, at least one, and no leading zero except for zero itself. *)
Definition canonical_decimal (ds : str) : bool :=
  nonempty ds && forallb is_digit ds
  && match ds with
     | 48%N :: _ :: _ => false
     | _ => true
     end.

(** [ds] is the decimal numeral of [n]. *)
Definition decimal_of (n : nat) (ds : str) : Prop :=
  canonical_decimal ds = true /\ decimal_value ds = n.

(** The subsection of an input as text: four lines and an empty line. *)
Definition input_text (name block : str) : str :=
  lit "### " ++ name ++ [nl]
  ++ lit "- **Description:** "
  ++ default_to (lit "No description provided") (description_of block) ++ [nl]
  ++ lit "- **Type:** " ++ default_to (lit "any") (line_value (lit "type") block)
  ++ [nl]
  ++ lit "- **Default:** "
  ++ default_to (lit "no default") (line_value (lit "default") block) ++ [nl]
  ++ [nl].

(** The subsection of an output as text: two lines and an empty line. *)
Definition output_text (name block : str) : str :=
  lit "### " ++ name ++ [nl]
  ++ lit "- **Description:** "
  ++ default_to (lit "No description provided") (description_of block) ++ [nl]
  ++ [nl].

(** The whole report: title, version and link, the two headings with their
    counts as numerals, the subsections in order, the README section. *)
Definition report_text (module_id version inputs_count outputs_count : str)
    (var_blocks out_blocks : list (str * str)) (readme_section : str) : str :=
  lit "# Module Analysis: " ++ module_id ++ [nl] ++ [nl]
  ++ lit "**Version:** " ++ version ++ [nl]
  ++ lit "**Registry Link:** https://registry.terraform.io/modules/" ++ module_id
  ++ [nl] ++ [nl]
  ++ lit "## Inputs (" ++ inputs_count ++ lit ")" ++ [nl] ++ [nl]
  ++ concat (map (fun '(name, block) => input_text name block) var_blocks)
  ++ lit "## Outputs (" ++ outputs_count ++ lit ")" ++ [nl] ++ [nl]
  ++ concat (map (fun '(name, block) => output_text name block) out_blocks)
  ++ lit "## README" ++ [nl; nl] ++ readme_section.

(** The README section closes the text: after a newline, the heading, an
    empty line, and the first 2000 characters of [r] with the truncation
    suffix when [r] is longer than 2000 characters, [r] itself otherwise. *)
Definition ends_with_readme_section (text r : str) : Prop :=
  (2000 < length r ->
   exists head,
     text = head ++ [nl] ++ lit "## README" ++ [nl; nl]
            ++ firstn 2000 r ++ lit "..." ++ [nl; nl]
            ++ lit "(README truncated due to length)")
  /\ (length r <= 2000 ->
      exists head, text = head ++ [nl] ++ lit "## README" ++ [nl; nl] ++ r).

(** A stored value on one line, without whitespace at either end. *)
Definition clean (v : str) : Prop :=
  free_of nl v = true /\ stops Space v = true /\ stops Space (rev v) = true.

(** Two variables, one after the other. *)
Definition two_variables : list block_item :=
  [(lit " ", lit "region", lit " ", [nl] ++ lit "  type = string" ++ [nl]);
   (lit " ", lit "zone", lit " ", [nl] ++ lit "  type = string" ++ [nl])].

(** A body whose [type] is followed by blanks only. *)
Definition blank_type_body : str :=
  ([nl] ++ lit "  ") ++ line_text (lit "type") (lit " ") (lit " ") (lit " ").

(** The module's variables.tf holds two variables, and there is nothing
    else. *)
Definition two_variables_tree : modules_tree :=
  Ok [(lit "analyzed_module",
       Directory
         [(lit "variables.tf",
           Readable (blocks_text (lit "variable") [nl] two_variables))])].


(** * Properties *)

(** ** Strings *)

Lemma str_eqb_eq (a b : str) : str_eqb a b = true <-> a = b.
Proof.
  revert b; induction a as [|x a IH]; intros [|y b]; simpl; split;
    try congruence; try discriminate.
  - intros H. apply andb_true_iff in H as [Hx Hab].
    apply N.eqb_eq in Hx. apply IH in Hab. congruence.
  - intros H. injection H as -> ->. rewrite N.eqb_refl. simpl. now apply IH.
Qed.

Lemma str_eqb_refl (a : str) : str_eqb a a = true.
Proof. now apply str_eqb_eq. Qed.

Lemma join_snoc (sep : str) (parts : list str) (p q : str) :
  join sep ((p :: parts) ++ [q]) = join sep (p :: parts) ++ sep ++ q.
Proof.
  revert p; induction parts as [|x parts IH]; intros p.
  - reflexivity.
  - change (join sep ((p :: x :: parts) ++ [q]))
      with (p ++ sep ++ join sep ((x :: parts) ++ [q])).
    rewrite IH. change (join sep (p :: x :: parts))
      with (p ++ sep ++ join sep (x :: parts)).
    now rewrite <- !app_assoc.
Qed.

(** ** The matcher *)

Section Matcher.

Lemma plus_runs_In (cs : cset) (s m t : str) :
  In (m, t) (plus_runs cs s)
  <-> m <> [] /\ forallb (mem cs) m = true /\ s = m ++ t.
Proof.
  split.
  - revert m t; induction s as [|c s IH]; simpl; intros m t H; [easy|].
    destruct (mem cs c) eqn:Hc; [|easy].
    apply in_app_iff in H as [H|[H|[]]].
    + apply in_map_iff in H as [[m' t'] [E H]]. injection E as <- <-.
      apply IH in H as (_ & Hm & ->). simpl. rewrite Hc. now repeat split.
    + injection H as <- <-. simpl. rewrite Hc. now repeat split.
  - intros (Hne & Hm & ->). induction m as [|c m IH]; [easy|].
    simpl in Hm. apply andb_true_iff in Hm as [Hc Hm]. simpl. rewrite Hc.
    apply in_app_iff. destruct m as [|c' m].
    + right. now left.
    + left. apply in_map_iff. exists (c' :: m, t). split; [easy|].
      apply IH; easy.
Qed.

Lemma plus_runs_stops (cs : cset) (t : str) :
  stops cs t = true -> plus_runs cs t = [].
Proof.
  destruct t as [|c t]; simpl; [easy|]. now destruct (mem cs c).
Qed.

Lemma plus_runs_longest (cs : cset) (run t : str) :
  run <> [] -> forallb (mem cs) run = true -> stops cs t = true ->
  hd_error (plus_runs cs (run ++ t)) = Some (run, t).
Proof.
  intros Hne Hrun Ht. induction run as [|c run IH]; [easy|].
  simpl in Hrun. apply andb_true_iff in Hrun as [Hc Hrun].
  simpl. rewrite Hc. destruct run as [|c' run].
  - simpl. now rewrite (plus_runs_stops _ _ Ht).
  - specialize (IH ltac:(easy) Hrun).
    destruct (plus_runs cs ((c' :: run) ++ t)) as [|[m r] l]; [easy|].
    simpl in IH. injection IH as -> ->. reflexivity.
Qed.

Lemma matches_sound (r : regex) : forall s g m t,
  In (g, m, t) (matches r s) -> s = m ++ t.
Proof.
  induction r as [|c|cs|r1 IH1 r2 IH2|r IH]; simpl; intros s g m t H.
  - destruct H as [H|[]]. now injection H as <- <- <-.
  - destruct s as [|x s]; [easy|]. destruct (x =? c)%N; [|easy].
    destruct H as [H|[]]. now injection H as <- <- <-.
  - apply in_map_iff in H as [[m' t'] [E H]]. injection E as <- <- <-.
    now apply plus_runs_In in H.
  - apply in_flat_map in H as [[[g1 m1] t1] [H1 H]].
    apply in_map_iff in H as [[[g2 m2] t2] [E H2]]. injection E as <- <- <-.
    apply IH1 in H1. apply IH2 in H2. subst. now rewrite app_assoc.
  - apply in_map_iff in H as [[[g' m'] t'] [E H]]. injection E as <- <- <-.
    now apply IH in H.
Qed.

Lemma in_matches_chr (c : char) (s : str) g m t :
  In (g, m, t) (matches (Chr c) s) <-> g = [] /\ m = [c] /\ s = c :: t.
Proof.
  simpl. destruct s as [|x s].
  - split; [easy|]. now intros (_ & _ & ?).
  - destruct (N.eqb_spec x c) as [->|Hx].
    + split.
      * intros [H|[]]. now injection H as <- <- <-.
      * intros (-> & -> & E). injection E as ->. now left.
    + split; [easy|]. intros (_ & _ & E). now injection E.
Qed.

Lemma in_matches_plus (cs : cset) (s : str) g m t :
  In (g, m, t) (matches (Plus cs) s)
  <-> g = [] /\ m <> [] /\ forallb (mem cs) m = true /\ s = m ++ t.
Proof.
  simpl. rewrite in_map_iff. split.
  - intros [[m' t'] [E H]]. injection E as <- <- <-.
    apply plus_runs_In in H. tauto.
  - intros (-> & H). exists (m, t). split; [easy|]. now apply plus_runs_In.
Qed.

Lemma in_matches_cat (r1 r2 : regex) (s : str) g m t :
  In (g, m, t) (matches (Cat r1 r2) s)
  <-> exists g1 m1 t1 g2 m2,
        In (g1, m1, t1) (matches r1 s) /\ In (g2, m2, t) (matches r2 t1)
        /\ g = g1 ++ g2 /\ m = m1 ++ m2.
Proof.
  simpl. rewrite in_flat_map. split.
  - intros [[[g1 m1] t1] [H1 H]].
    apply in_map_iff in H as [[[g2 m2] t2] [E H2]]. injection E as <- <- <-.
    now exists g1, m1, t1, g2, m2.
  - intros (g1 & m1 & t1 & g2 & m2 & H1 & H2 & -> & ->).
    exists (g1, m1, t1). split; [easy|].
    apply in_map_iff. now exists (g2, m2, t).
Qed.

Lemma in_matches_grp (r : regex) (s : str) g m t :
  In (g, m, t) (matches (Grp r) s)
  <-> exists g', In (g', m, t) (matches r s) /\ g = m :: g'.
Proof.
  simpl. rewrite in_map_iff. split.
  - intros [[[g' m'] t'] [E H]]. injection E as <- <- <-. now exists g'.
  - intros (g' & H & ->). now exists (g', m, t).
Qed.

Lemma in_matches_word (w : str) : forall s g m t,
  In (g, m, t) (matches (word w) s) <-> g = [] /\ m = w /\ s = w ++ t.
Proof.
  induction w as [|c w IH]; intros s g m t.
  - simpl. split.
    + intros [H|[]]. now injection H as <- <- <-.
    + intros (-> & -> & ->). now left.
  - change (word (c :: w)) with (Cat (Chr c) (word w)).
    rewrite in_matches_cat. split.
    + intros (g1 & m1 & t1 & g2 & m2 & H1 & H2 & -> & ->).
      apply in_matches_chr in H1 as (-> & -> & ->).
      apply IH in H2 as (-> & -> & ->). easy.
    + intros (-> & -> & ->). exists [], [c], (w ++ t), [], w.
      repeat split; [now apply in_matches_chr | now apply IH].
Qed.

(** The first success. *)

Lemma match_at_none (r : regex) (s : str) :
  match_at r s = None <-> forall x, ~ In x (matches r s).
Proof.
  unfold match_at. destruct (matches r s) as [|y l]; simpl; split; try easy.
  intros H. exfalso. apply (H y). now left.
Qed.

Lemma match_at_in (r : regex) (s : str) x :
  match_at r s = Some x -> In x (matches r s).
Proof.
  unfold match_at. destruct (matches r s); simpl; [easy|].
  intros H. injection H as ->. now left.
Qed.

Lemma match_at_cat (r1 r2 : regex) (s : str) g1 m1 t1 g2 m2 t2 :
  match_at r1 s = Some (g1, m1, t1) ->
  match_at r2 t1 = Some (g2, m2, t2) ->
  match_at (Cat r1 r2) s = Some (g1 ++ g2, m1 ++ m2, t2).
Proof.
  unfold match_at. simpl. intros H1 H2.
  destruct (matches r1 s) as [|x l]; [easy|]. injection H1 as ->.
  simpl. destruct (matches r2 t1) as [|y l']; [easy|]. injection H2 as ->.
  reflexivity.
Qed.

Lemma match_at_chr (c : char) (t : str) :
  match_at (Chr c) (c :: t) = Some ([], [c], t).
Proof. unfold match_at. simpl. now rewrite N.eqb_refl. Qed.

Lemma match_at_word (w t : str) :
  match_at (word w) (w ++ t) = Some ([], w, t).
Proof.
  induction w as [|c w IH]; [reflexivity|].
  change (word (c :: w)) with (Cat (Chr c) (word w)).
  change ((c :: w) ++ t) with (c :: (w ++ t)).
  exact (match_at_cat (Chr c) (word w) _ _ _ _ _ _ _ (match_at_chr c _) IH).
Qed.

Lemma match_at_plus (cs : cset) (run t : str) :
  run <> [] -> forallb (mem cs) run = true -> stops cs t = true ->
  match_at (Plus cs) (run ++ t) = Some ([], run, t).
Proof.
  intros Hne Hrun Ht. unfold match_at. simpl.
  pose proof (plus_runs_longest cs run t Hne Hrun Ht) as H.
  destruct (plus_runs cs (run ++ t)) as [|[m r] l]; [easy|].
  simpl in H. injection H as -> ->. reflexivity.
Qed.

Lemma match_at_grp (r : regex) (s : str) g m t :
  match_at r s = Some (g, m, t) ->
  match_at (Grp r) s = Some (m :: g, m, t).
Proof.
  unfold match_at. simpl. destruct (matches r s) as [|x l]; [easy|].
  intros H. injection H as ->. reflexivity.
Qed.

End Matcher.

(** ** Scanning a text *)

Section Scanning.

Variable r : regex.

Lemma nonempty_true (s : str) : nonempty s = true <-> s <> [].
Proof. destruct s; simpl; split; congruence. Qed.

Lemma search_hit (s : str) g m t :
  match_at r s = Some (g, m, t) -> search r s = Some g.
Proof. intros H. destruct s; simpl; now rewrite H. Qed.

Lemma search_clear (pre s : str) :
  clear_before r pre s = true -> search r (pre ++ s) = search r s.
Proof.
  induction pre as [|c pre IH]; [easy|].
  simpl. destruct (match_at r (c :: pre ++ s)); [easy|]. exact IH.
Qed.

Lemma search_inv (s : str) g :
  search r s = Some g ->
  exists pre m t, s = pre ++ m ++ t /\ clear_before r pre (m ++ t) = true
                  /\ match_at r (m ++ t) = Some (g, m, t).
Proof.
  induction s as [|c s IH]; simpl.
  - destruct (match_at r []) as [[[g' m] t]|] eqn:E; [|easy].
    intros H. injection H as ->.
    pose proof (matches_sound r _ _ _ _ (match_at_in _ _ _ E)) as Hs.
    exists [], m, t. simpl. now rewrite <- Hs.
  - destruct (match_at r (c :: s)) as [[[g' m] t]|] eqn:E.
    + intros H. injection H as ->.
      pose proof (matches_sound r _ _ _ _ (match_at_in _ _ _ E)) as Hs.
      exists [], m, t. simpl. now rewrite <- Hs.
    + intros H. destruct (IH H) as (pre & m & t & -> & Hc & Hm).
      exists (c :: pre), m, t. repeat split; [|exact Hm].
      simpl. simpl in E. now rewrite E.
Qed.


Lemma findall_from_skip (a t : str) :
  findall_from r (length a) (a ++ t) = findall_from r 0 t.
Proof. induction a as [|c a IH]; [reflexivity|]. simpl. exact IH. Qed.

Lemma findall_hit (s : str) g m t :
  match_at r s = Some (g, m, t) -> m <> [] ->
  findall r s = g :: findall r t.
Proof.
  intros H Hne.
  pose proof (matches_sound r _ _ _ _ (match_at_in _ _ _ H)) as Hs.
  destruct m as [|c m]; [easy|]. subst s. unfold findall.
  change (findall_from r 0 ((c :: m) ++ t))
    with (match match_at r ((c :: m) ++ t) with
          | Some (g, m', _) => g :: findall_from r (length m' - 1) (m ++ t)
          | None => findall_from r 0 (m ++ t)
          end).
  rewrite H. replace (length (c :: m) - 1) with (length m) by (simpl; lia).
  now rewrite findall_from_skip.
Qed.

Lemma findall_miss (c : char) (s : str) :
  match_at r (c :: s) = None -> findall r (c :: s) = findall r s.
Proof. intros H. unfold findall. simpl. now rewrite H. Qed.

Lemma findall_clear (pre s : str) :
  clear_before r pre s = true -> findall r (pre ++ s) = findall r s.
Proof.
  induction pre as [|c pre IH]; [easy|].
  simpl clear_before.
  destruct (match_at r (c :: pre ++ s)) eqn:E; [easy|].
  intros H. change ((c :: pre) ++ s) with (c :: (pre ++ s)).
  rewrite (findall_miss _ _ E). now apply IH.
Qed.

Lemma findall_from_inv (s : str) : forall k g,
  In g (findall_from r k s) ->
  exists pre m t, s = pre ++ m ++ t /\ match_at r (m ++ t) = Some (g, m, t).
Proof.
  induction s as [|c s IH]; intros k g; simpl.
  - destruct k; [|easy].
    destruct (match_at r []) as [[[g' m] t]|] eqn:E; [|easy].
    intros [<-|[]].
    pose proof (matches_sound r _ _ _ _ (match_at_in _ _ _ E)) as Hs.
    exists [], m, t. simpl. now rewrite <- Hs.
  - destruct k as [|k].
    + destruct (match_at r (c :: s)) as [[[g' m] t]|] eqn:E.
      * intros [<-|H].
        -- pose proof (matches_sound r _ _ _ _ (match_at_in _ _ _ E)) as Hs.
           exists [], m, t. simpl. now rewrite <- Hs.
        -- destruct (IH _ _ H) as (pre & m' & t' & -> & Hm).
           now exists (c :: pre), m', t'.
      * intros H. destruct (IH _ _ H) as (pre & m' & t' & -> & Hm).
        now exists (c :: pre), m', t'.
    + intros H. destruct (IH _ _ H) as (pre & m' & t' & -> & Hm).
      now exists (c :: pre), m', t'.
Qed.

End Scanning.

(** ** The block pattern *)

Section BlockPattern.

Variable keyword : str.


Lemma block_shape_spec (ws1 name ws2 body : str) :
  block_shape ws1 name ws2 body = true
  <-> (ws1 <> [] /\ whitespace ws1 = true) /\ (name <> [] /\ free_of dq name = true)
      /\ (ws2 <> [] /\ whitespace ws2 = true)
      /\ (body <> [] /\ free_of rbrace body = true).
Proof.
  unfold block_shape. rewrite !andb_true_iff, !nonempty_true. tauto.
Qed.

(** A well-shaped block at the start of the text is what the pattern matches
    first, with the body ending at the first closing brace. *)
Lemma block_match_first (ws1 name ws2 body rest : str) :
  block_shape ws1 name ws2 body = true ->
  match_at (block_pattern keyword)
           (block_text keyword ws1 name ws2 body ++ rest)
  = Some ([name; body], block_text keyword ws1 name ws2 body, rest).
Proof.
  intros H. apply block_shape_spec in H
    as ((Hw1 & Hs1) & (Hn & Hq) & (Hw2 & Hs2) & (Hb & Hr)).
  unfold block_text, block_pattern. rewrite <- !app_assoc.
  eapply (match_at_cat _ _ _ [] _ _ [name; body]); [apply match_at_word|].
  eapply (match_at_cat _ _ _ [] _ _ [name; body]);
    [apply match_at_plus; [exact Hw1 | exact Hs1 | reflexivity]|].
  eapply (match_at_cat _ _ _ [] _ _ [name; body]); [apply match_at_chr|].
  eapply (match_at_cat _ _ _ [name] _ _ [body]);
    [apply match_at_grp, match_at_plus; [exact Hn | exact Hq | reflexivity]|].
  eapply (match_at_cat _ _ _ [] _ _ [body]); [apply match_at_chr|].
  eapply (match_at_cat _ _ _ [] _ _ [body]);
    [apply match_at_plus; [exact Hw2 | exact Hs2 | reflexivity]|].
  eapply (match_at_cat _ _ _ [] _ _ [body]); [apply match_at_chr|].
  eapply (match_at_cat _ _ _ [body] _ _ []);
    [apply match_at_grp, match_at_plus; [exact Hb | exact Hr | reflexivity]|].
  apply match_at_chr.
Qed.

(** Whatever the pattern matches is a well-shaped block. *)
Lemma block_match_inv (s : str) g m t :
  In (g, m, t) (matches (block_pattern keyword) s) ->
  exists ws1 name ws2 body,
    g = [name; body] /\ m = block_text keyword ws1 name ws2 body
    /\ s = m ++ t /\ block_shape ws1 name ws2 body = true.
Proof.
  intros H. pose proof (matches_sound _ _ _ _ _ H) as Hs.
  unfold block_pattern in H.
  apply in_matches_cat in H as (g1 & m1 & t1 & g' & m' & H1 & H & -> & ->).
  apply in_matches_word in H1 as (-> & -> & _).
  apply in_matches_cat in H as (g1 & m1 & t2 & g'' & m'' & H1 & H & -> & ->).
  apply in_matches_plus in H1 as (-> & Hw1 & Hs1 & _).
  rename m1 into ws1.
  apply in_matches_cat in H as (g1 & m1 & t3 & g' & m' & H1 & H & -> & ->).
  apply in_matches_chr in H1 as (-> & -> & _).
  apply in_matches_cat in H as (g1 & m1 & t4 & g'' & m'' & H1 & H & -> & ->).
  apply in_matches_grp in H1 as (g0 & H1 & ->).
  apply in_matches_plus in H1 as (-> & Hn & Hq & _).
  rename m1 into name.
  apply in_matches_cat in H as (g1 & m1 & t5 & g' & m' & H1 & H & -> & ->).
  apply in_matches_chr in H1 as (-> & -> & _).
  apply in_matches_cat in H as (g1 & m1 & t6 & g'' & m'' & H1 & H & -> & ->).
  apply in_matches_plus in H1 as (-> & Hw2 & Hs2 & _).
  rename m1 into ws2.
  apply in_matches_cat in H as (g1 & m1 & t7 & g' & m' & H1 & H & -> & ->).
  apply in_matches_chr in H1 as (-> & -> & _).
  apply in_matches_cat in H as (g1 & m1 & t8 & g'' & m'' & H1 & H & -> & ->).
  apply in_matches_grp in H1 as (g0 & H1 & ->).
  apply in_matches_plus in H1 as (-> & Hb & Hr & _).
  rename m1 into body.
  apply in_matches_chr in H as (-> & -> & _).
  exists ws1, name, ws2, body. repeat split; [exact Hs|].
  apply block_shape_spec. tauto.
Qed.

End BlockPattern.

(** ** The first success of a sequence *)

Section FirstSuccess.

Lemma hd_flat_map_inv {A B} (f : A -> list B) (l : list A) y :
  hd_error (flat_map f l) = Some y ->
  exists x, In x l /\ hd_error (f x) = Some y.
Proof.
  induction l as [|x l IH]; simpl; [easy|].
  destruct (f x) as [|b bs] eqn:E; simpl.
  - intros H. destruct (IH H) as (x' & Hin & Hx'). exists x'. auto.
  - intros H. injection H as ->. exists x. rewrite E. auto.
Qed.

Lemma match_at_cat_inv (r1 r2 : regex) (s : str) g m t :
  match_at (Cat r1 r2) s = Some (g, m, t) ->
  exists g1 m1 t1 g2 m2,
    In (g1, m1, t1) (matches r1 s) /\ match_at r2 t1 = Some (g2, m2, t)
    /\ g = g1 ++ g2 /\ m = m1 ++ m2.
Proof.
  unfold match_at. simpl. intros H.
  apply hd_flat_map_inv in H as ([[g1 m1] t1] & Hin & H).
  exists g1, m1, t1.
  destruct (matches r2 t1) as [|[[g2 m2] t2] l]; [easy|].
  simpl in H. injection H as <- <- <-. now exists g2, m2.
Qed.

Lemma match_at_grp_inv (r : regex) (s : str) g m t :
  match_at (Grp r) s = Some (g, m, t) ->
  exists g', match_at r s = Some (g', m, t) /\ g = m :: g'.
Proof.
  unfold match_at. simpl. destruct (matches r s) as [|[[g' m'] t'] l]; [easy|].
  simpl. intros H. injection H as <- <- <-. now exists g'.
Qed.

Lemma plus_runs_nil (cs : cset) (s : str) :
  plus_runs cs s = [] -> stops cs s = true.
Proof.
  destruct s as [|c s]; simpl; [easy|]. destruct (mem cs c); [|easy].
  intros H. apply app_eq_nil in H as [_ H]. discriminate H.
Qed.

Lemma plus_runs_head_stops (cs : cset) : forall s m t,
  hd_error (plus_runs cs s) = Some (m, t) -> stops cs t = true.
Proof.
  induction s as [|c s IH]; simpl; intros m t; [easy|].
  destruct (mem cs c); [|easy].
  destruct (plus_runs cs s) as [|[m' t'] l] eqn:E; simpl.
  - intros H. injection H as <- <-. now apply plus_runs_nil.
  - intros H. injection H as <- <-. now apply (IH m').
Qed.

Lemma match_at_plus_inv (cs : cset) (s : str) g m t :
  match_at (Plus cs) s = Some (g, m, t) ->
  g = [] /\ m <> [] /\ forallb (mem cs) m = true /\ s = m ++ t
  /\ stops cs t = true.
Proof.
  intros H. pose proof (match_at_in _ _ _ H) as Hin.
  apply in_matches_plus in Hin as (-> & Hne & Hm & Hs).
  repeat split; try assumption.
  unfold match_at in H. simpl in H.
  destruct (plus_runs cs s) as [|[m' t'] l] eqn:E; [easy|].
  simpl in H. injection H as <- <-.
  apply (plus_runs_head_stops cs s m'). now rewrite E.
Qed.

End FirstSuccess.

(** ** The attribute patterns *)

(** A run of [cs+] read off the text of the goal. *)
Ltac in_plus :=
  apply in_matches_plus;
  refine (conj eq_refl (conj _ (conj _ eq_refl))); assumption.

Section AttributePatterns.

Lemma description_shape_spec (ws1 ws2 text : str) :
  description_shape ws1 ws2 text = true
  <-> (ws1 <> [] /\ whitespace ws1 = true) /\ (ws2 <> [] /\ whitespace ws2 = true)
      /\ (text <> [] /\ free_of dq text = true).
Proof.
  unfold description_shape. rewrite !andb_true_iff, !nonempty_true. tauto.
Qed.

Lemma line_shape_spec (ws1 ws2 value : str) :
  line_shape ws1 ws2 value = true
  <-> (ws1 <> [] /\ whitespace ws1 = true) /\ (ws2 <> [] /\ whitespace ws2 = true)
      /\ (value <> [] /\ free_of nl value = true).
Proof.
  unfold line_shape. rewrite !andb_true_iff, !nonempty_true. tauto.
Qed.


Lemma description_match_iff (s : str) g m t :
  In (g, m, t) (matches description_pattern s)
  <-> exists ws1 ws2 text,
        g = [text] /\ m = description_text ws1 ws2 text
        /\ s = m ++ t /\ description_shape ws1 ws2 text = true.
Proof.
  split.
  - intros H. pose proof (matches_sound _ _ _ _ _ H) as Hs.
    unfold description_pattern in H.
    apply in_matches_cat in H as (g1 & m1 & t1 & g' & m' & H1 & H & -> & ->).
    apply in_matches_word in H1 as (-> & -> & _).
    apply in_matches_cat in H as (g1 & m1 & t2 & g'' & m'' & H1 & H & -> & ->).
    apply in_matches_plus in H1 as (-> & Hw1 & Hs1 & _).
    rename m1 into ws1.
    apply in_matches_cat in H as (g1 & m1 & t3 & g' & m' & H1 & H & -> & ->).
    apply in_matches_chr in H1 as (-> & -> & _).
    apply in_matches_cat in H as (g1 & m1 & t4 & g'' & m'' & H1 & H & -> & ->).
    apply in_matches_plus in H1 as (-> & Hw2 & Hs2 & _).
    rename m1 into ws2.
    apply in_matches_cat in H as (g1 & m1 & t5 & g' & m' & H1 & H & -> & ->).
    apply in_matches_chr in H1 as (-> & -> & _).
    apply in_matches_cat in H as (g1 & m1 & t6 & g'' & m'' & H1 & H & -> & ->).
    apply in_matches_grp in H1 as (g0 & H1 & ->).
    apply in_matches_plus in H1 as (-> & Hn & Hq & _).
    rename m1 into text.
    apply in_matches_chr in H as (-> & -> & _).
    exists ws1, ws2, text. repeat split; [exact Hs|].
    apply description_shape_spec. tauto.
  - intros (ws1 & ws2 & text & -> & -> & -> & H).
    apply description_shape_spec in H as ((Hw1 & Hs1) & (Hw2 & Hs2) & (Hn & Hq)).
    unfold description_text, description_pattern. rewrite <- !app_assoc.
    apply in_matches_cat. eexists [], _, _, [text], _.
    split; [now apply in_matches_word|]. split; [|easy].
    apply in_matches_cat. eexists [], _, _, [text], _.
    split; [in_plus|]. split; [|easy].
    apply in_matches_cat. eexists [], _, _, [text], _.
    split; [now apply in_matches_chr|]. split; [|easy].
    apply in_matches_cat. eexists [], _, _, [text], _.
    split; [in_plus|]. split; [|easy].
    apply in_matches_cat. eexists [], _, _, [text], _.
    split; [now apply in_matches_chr|]. split; [|easy].
    apply in_matches_cat. eexists [text], _, _, [], _.
    split; [apply in_matches_grp; exists []; split; [|easy]; in_plus|].
    split; [|easy]. now apply in_matches_chr.
Qed.

Variable attr : str.


Lemma line_match_iff (s : str) g m t :
  In (g, m, t) (matches (line_pattern attr) s)
  <-> exists ws1 ws2 value,
        g = [value] /\ m = line_text attr ws1 ws2 value
        /\ s = m ++ t /\ line_shape ws1 ws2 value = true.
Proof.
  split.
  - intros H. pose proof (matches_sound _ _ _ _ _ H) as Hs.
    unfold line_pattern in H.
    apply in_matches_cat in H as (g1 & m1 & t1 & g' & m' & H1 & H & -> & ->).
    apply in_matches_word in H1 as (-> & -> & _).
    apply in_matches_cat in H as (g1 & m1 & t2 & g'' & m'' & H1 & H & -> & ->).
    apply in_matches_plus in H1 as (-> & Hw1 & Hs1 & _).
    rename m1 into ws1.
    apply in_matches_cat in H as (g1 & m1 & t3 & g' & m' & H1 & H & -> & ->).
    apply in_matches_chr in H1 as (-> & -> & _).
    apply in_matches_cat in H as (g1 & m1 & t4 & g'' & m'' & H1 & H & -> & ->).
    apply in_matches_plus in H1 as (-> & Hw2 & Hs2 & _).
    rename m1 into ws2.
    apply in_matches_grp in H as (g0 & H & ->).
    apply in_matches_plus in H as (-> & Hn & Hl & _).
    exists ws1, ws2, m''. repeat split; [exact Hs|].
    apply line_shape_spec. tauto.
  - intros (ws1 & ws2 & value & -> & -> & -> & H).
    apply line_shape_spec in H as ((Hw1 & Hs1) & (Hw2 & Hs2) & (Hn & Hl)).
    unfold line_text, line_pattern. rewrite <- !app_assoc.
    apply in_matches_cat. eexists [], _, _, [value], _.
    split; [now apply in_matches_word|]. split; [|easy].
    apply in_matches_cat. eexists [], _, _, [value], _.
    split; [in_plus|]. split; [|easy].
    apply in_matches_cat. eexists [], _, _, [value], _.
    split; [now apply in_matches_chr|]. split; [|easy].
    apply in_matches_cat. eexists [], _, _, [value], _.
    split; [in_plus|]. split; [|easy].
    apply in_matches_grp. exists []. split; [|easy]. in_plus.
Qed.

(** The first success runs to the end of its line. *)
Lemma line_match_at_stops (s : str) g m t :
  match_at (line_pattern attr) s = Some (g, m, t) ->
  stops (NotChar nl) t = true.
Proof.
  unfold line_pattern. intros H.
  apply match_at_cat_inv in H as (? & ? & ? & ? & ? & _ & H & _ & _).
  apply match_at_cat_inv in H as (? & ? & ? & ? & ? & _ & H & _ & _).
  apply match_at_cat_inv in H as (? & ? & ? & ? & ? & _ & H & _ & _).
  apply match_at_cat_inv in H as (? & ? & ? & ? & ? & _ & H & _ & _).
  apply match_at_grp_inv in H as (? & H & _).
  now apply match_at_plus_inv in H.
Qed.

End AttributePatterns.

(** ** Block extraction *)

Section Blocks.

Variable keyword : str.

Lemma run_unique (p : char -> bool) : forall (a b : str) x y r r',
  forallb p a = true -> forallb p b = true -> p x = false -> p y = false ->
  a ++ x :: r = b ++ y :: r' -> a = b /\ x :: r = y :: r'.
Proof.
  induction a as [|c a IH]; intros [|c' b] x y r r' Ha Hb Hx Hy E; simpl in *.
  - easy.
  - injection E as -> _. apply andb_true_iff in Hb as [Hb _]. congruence.
  - injection E as -> _. apply andb_true_iff in Ha as [Ha _]. congruence.
  - injection E as -> E. apply andb_true_iff in Ha as [_ Ha].
    apply andb_true_iff in Hb as [_ Hb].
    destruct (IH b x y r r' Ha Hb Hx Hy E) as [-> ?]. easy.
Qed.

Lemma block_text_nonempty (ws1 name ws2 body : str) :
  block_text keyword ws1 name ws2 body <> [].
Proof.
  unfold block_text. intros E. apply (f_equal (@length char)) in E.
  rewrite !length_app in E. simpl in E. lia.
Qed.

Lemma blocks_hit (content : str) g m t :
  match_at (block_pattern keyword) content = Some (g, m, t) ->
  exists name body, g = [name; body]
    /\ blocks keyword content = (name, body) :: blocks keyword t.
Proof.
  intros H.
  destruct (block_match_inv keyword _ _ _ _ (match_at_in _ _ _ H))
    as (ws1 & name & ws2 & body & -> & -> & _ & _).
  exists name, body. split; [easy|]. unfold blocks.
  rewrite (findall_hit _ _ _ _ _ H (block_text_nonempty _ _ _ _)).
  reflexivity.
Qed.

Lemma blocks_clear (pre content : str) :
  clear_before (block_pattern keyword) pre content = true ->
  blocks keyword (pre ++ content) = blocks keyword content.
Proof. intros H. unfold blocks. now rewrite (findall_clear _ _ _ H). Qed.

(** Every extracted block stands in the text, well shaped. *)
Lemma blocks_inv (content name body : str) :
  In (name, body) (blocks keyword content) ->
  exists pre ws1 ws2 post,
    content = pre ++ block_text keyword ws1 name ws2 body ++ post
    /\ block_shape ws1 name ws2 body = true.
Proof.
  unfold blocks. intros H. apply in_map_iff in H as (g & E & H).
  apply findall_from_inv in H as (pre & m & t & -> & H).
  destruct (block_match_inv keyword _ _ _ _ (match_at_in _ _ _ H))
    as (ws1 & n & ws2 & b & -> & -> & _ & Hshape).
  cbv [group nth Nat.sub] in E. injection E as -> ->.
  now exists pre, ws1, ws2, t.
Qed.

(** The pattern finds nothing where an empty pair of braces stands. *)
Lemma empty_body_no_match (ws1 name ws2 rest : str) :
  whitespace ws1 = true -> free_of dq name = true -> whitespace ws2 = true ->
  match_at (block_pattern keyword)
    (keyword ++ ws1 ++ [dq] ++ name ++ [dq] ++ ws2 ++ [lbrace; rbrace] ++ rest)
  = None.
Proof.
  intros Hs1 Hq Hs2. apply match_at_none. intros [[g m] t] H.
  apply block_match_inv in H as (w1 & n & w2 & b & _ & -> & E & Hshape).
  apply block_shape_spec in Hshape
    as ((_ & Hw1) & (_ & Hn) & (_ & Hw2) & (Hb & Hr)).
  unfold block_text in E. rewrite <- !app_assoc in E.
  apply app_inv_head in E.
  apply (run_unique isspace) in E as [<- E]; [|easy..].
  injection E as E.
  apply (run_unique (fun x => negb (x =? dq)%N)) in E as [<- E]; [|easy..].
  injection E as E.
  apply (run_unique isspace) in E as [<- E]; [|easy..].
  injection E as E. destruct b as [|c b]; [easy|].
  injection E as <- _. simpl in Hr. discriminate Hr.
Qed.

Lemma first_occurrence (c : char) : forall (x y r r' : str),
  free_of c x = true -> x ++ c :: r = y ++ c :: r' ->
  (y = x /\ r' = r) \/ exists z, y = x ++ c :: z /\ r = z ++ c :: r'.
Proof.
  induction x as [|a x IH]; intros [|b y] r r' Hx E; simpl in *.
  - left. now injection E as ->.
  - injection E as <- ->. right. now exists y.
  - injection E as -> _. now rewrite N.eqb_refl in Hx.
  - injection E as <- E. apply andb_true_iff in Hx as [_ Hx].
    destruct (IH y r r' Hx E) as [[-> ->]|(z & -> & ->)].
    + now left.
    + right. now exists z.
Qed.

(** A text whose only opening brace belongs to an empty pair of braces at its
    end holds no block. *)
Lemma blocks_empty_pair (x : str) :
  free_of lbrace x = true -> blocks keyword (x ++ [lbrace; rbrace]) = [].
Proof.
  intros Hx. destruct (blocks keyword (x ++ [lbrace; rbrace])) as [|[n b] l] eqn:E;
    [reflexivity|].
  exfalso.
  destruct (blocks_inv (x ++ [lbrace; rbrace]) n b) as (pre & ws1 & ws2 & post & H & Hs);
    [rewrite E; now left|].
  apply block_shape_spec in Hs as (_ & _ & _ & Hb & Hr).
  unfold block_text in H.
  replace (pre ++ (keyword ++ ws1 ++ [dq] ++ n ++ [dq] ++ ws2 ++ [lbrace] ++ b
                   ++ [rbrace]) ++ post)
    with ((pre ++ keyword ++ ws1 ++ [dq] ++ n ++ [dq] ++ ws2)
          ++ lbrace :: (b ++ rbrace :: post)) in H
    by (rewrite <- !app_assoc; reflexivity).
  apply (first_occurrence lbrace) in H as [[_ H]|(z & _ & H)]; [| |exact Hx].
  - destruct b as [|c b]; [easy|]. injection H as -> _. discriminate Hr.
  - destruct z as [|c z]; [discriminate H|].
    injection H as _ H. now destruct z.
Qed.

End Blocks.

(** ** Attribute extraction *)

Section Attributes.

Lemma variable_fields (name block : str) :
  dict_lookup (lit "name") (variable_of_block name block) = Some name
  /\ dict_lookup (lit "description") (variable_of_block name block)
     = description_of block
  /\ dict_lookup (lit "type") (variable_of_block name block)
     = line_value (lit "type") block
  /\ dict_lookup (lit "default") (variable_of_block name block)
     = line_value (lit "default") block.
Proof.
  unfold variable_of_block, description_of, line_value.
  destruct (search description_pattern block);
    destruct (search (line_pattern (lit "type")) block);
    destruct (search (line_pattern (lit "default")) block);
    repeat split; reflexivity.
Qed.

Lemma output_fields (name block : str) :
  dict_lookup (lit "name") (output_of_block name block) = Some name
  /\ dict_lookup (lit "description") (output_of_block name block)
     = description_of block
  /\ dict_lookup (lit "value") (output_of_block name block)
     = line_value (lit "value") block.
Proof.
  unfold output_of_block, description_of, line_value.
  destruct (search description_pattern block);
    destruct (search (line_pattern (lit "value")) block);
    repeat split; reflexivity.
Qed.


Lemma description_of_inv (block v : str) :
  description_of block = Some v ->
  exists pre ws1 ws2 post,
    block = pre ++ description_text ws1 ws2 v ++ post
    /\ description_shape ws1 ws2 v = true
    /\ clear_before description_pattern pre (description_text ws1 ws2 v ++ post)
       = true.
Proof.
  unfold description_of. destruct (search description_pattern block) as [g|] eqn:E;
    [|easy].
  simpl. intros H. injection H as <-.
  apply search_inv in E as (pre & m & t & -> & Hc & Hm).
  destruct (proj1 (description_match_iff _ _ _ _) (match_at_in _ _ _ Hm))
    as (ws1 & ws2 & text & -> & -> & _ & Hs).
  now exists pre, ws1, ws2, t.
Qed.


Variable attr : str.


Lemma line_value_inv (block v : str) :
  line_value attr block = Some v ->
  exists pre ws1 ws2 value post,
    block = pre ++ line_text attr ws1 ws2 value ++ post
    /\ line_shape ws1 ws2 value = true
    /\ stops (NotChar nl) post = true
    /\ clear_before (line_pattern attr) pre (line_text attr ws1 ws2 value ++ post)
       = true
    /\ v = strip value.
Proof.
  unfold line_value. destruct (search (line_pattern attr) block) as [g|] eqn:E;
    [|easy].
  simpl. intros H. injection H as <-.
  apply search_inv in E as (pre & m & t & -> & Hc & Hm).
  pose proof (line_match_at_stops attr _ _ _ _ Hm) as Hstop.
  destruct (proj1 (line_match_iff attr _ _ _ _) (match_at_in _ _ _ Hm))
    as (ws1 & ws2 & value & -> & -> & _ & Hs).
  now exists pre, ws1, ws2, value, t.
Qed.


End Attributes.

(** ** The handler *)

Section Handler.

Lemma split_nonempty (sep : char) (s : str) : split sep s <> [].
Proof.
  induction s as [|c s IH]; simpl; [easy|].
  destruct (c =? sep)%N; [easy|]. now destruct (split sep s).
Qed.

Lemma split_free (sep : char) (s : str) :
  free_of sep s = true -> split sep s = [s].
Proof.
  induction s as [|c s IH]; simpl; [easy|]. intros H.
  apply andb_true_iff in H as [Hc Hs]. apply negb_true_iff in Hc.
  rewrite Hc, (IH Hs). reflexivity.
Qed.

Lemma split_app (sep : char) (a b : str) :
  free_of sep a = true -> split sep (a ++ sep :: b) = a :: split sep b.
Proof.
  induction a as [|c a IH]; simpl.
  - intros _. now rewrite N.eqb_refl.
  - intros H. apply andb_true_iff in H as [Hc Ha]. apply negb_true_iff in Hc.
    rewrite Hc, (IH Ha). reflexivity.
Qed.

(** Splitting loses nothing: the segments hold no separator and joining them
    gives the text back. *)
Lemma split_join (sep : char) (s : str) :
  join [sep] (split sep s) = s /\ forallb (free_of sep) (split sep s) = true.
Proof.
  induction s as [|c s [IHj IHf]]; [easy|]. simpl.
  destruct (N.eqb_spec c sep) as [->|Hc].
  - pose proof (split_nonempty sep s) as Hne.
    destruct (split sep s) as [|seg segs]; [easy|]. split.
    + change (join [sep] ([] :: seg :: segs))
        with ([] ++ [sep] ++ join [sep] (seg :: segs)).
      now rewrite IHj.
    + simpl. simpl in IHf. exact IHf.
  - pose proof (split_nonempty sep s) as Hne.
    destruct (split sep s) as [|seg segs]; [easy|]. split.
    + rewrite <- IHj. destruct segs; reflexivity.
    + simpl in IHf. apply andb_true_iff in IHf as [Hseg Hsegs].
      simpl. rewrite Hseg, Hsegs. apply N.eqb_neq in Hc. now rewrite Hc.
Qed.

Lemma split3_iff (module_id namespace name provider : str) :
  split slash module_id = [namespace; name; provider]
  <-> module_id = namespace ++ [slash] ++ name ++ [slash] ++ provider
      /\ free_of slash namespace = true /\ free_of slash name = true
      /\ free_of slash provider = true.
Proof.
  split.
  - intros H. destruct (split_join slash module_id) as [Hj Hf].
    rewrite H in Hj, Hf. simpl in Hf.
    rewrite !andb_true_iff in Hf. split; [now rewrite <- Hj|tauto].
  - intros (-> & Hns & Hn & Hp).
    change (namespace ++ [slash] ++ name ++ [slash] ++ provider)
      with (namespace ++ slash :: name ++ slash :: provider).
    rewrite (split_app _ _ _ Hns), (split_app _ _ _ Hn), (split_free _ _ Hp).
    reflexivity.
Qed.

(** The extraction stages perform no effect of their own. *)
Lemma extraction_trace (tree : modules_tree) : fst (extraction tree) = [].
Proof.
  unfold extraction, extract_inputs, extract_outputs, read_readme.
  destruct (find_module_dir tree) as [d|e]; [|reflexivity]. simpl.
  destruct (file_at tree d (lit "variables.tf")) as [[c1|e1]|];
    destruct (file_at tree d (lit "outputs.tf")) as [[c2|e2]|];
    destruct (file_at tree d (lit "README.md")) as [[c3|e3]|]; reflexivity.
Qed.

Lemma extraction_inv (tree : modules_tree) (module_data : ModuleData) :
  snd (extraction tree) = Ok module_data ->
  exists d, find_module_dir tree = Ok d
            /\ files_readable tree d = true
            /\ module_data = spec_module_data tree d.
Proof.
  unfold extraction, extract_inputs, extract_outputs, read_readme.
  destruct (find_module_dir tree) as [d|e] eqn:Ed; [|easy]. simpl. intros H.
  exists d. split; [reflexivity|].
  unfold spec_module_data, files_readable, file_blocks, file_text.
  destruct (file_at tree d (lit "variables.tf")) as [[c1|e1]|];
    destruct (file_at tree d (lit "outputs.tf")) as [[c2|e2]|];
    destruct (file_at tree d (lit "README.md")) as [[c3|e3]|];
    simpl in H |- *; try discriminate H; injection H as <-; split; reflexivity.
Qed.

Lemma extraction_readable (tree : modules_tree) (d : str) :
  find_module_dir tree = Ok d -> files_readable tree d = true ->
  snd (extraction tree) = Ok (spec_module_data tree d).
Proof.
  unfold extraction, extract_inputs, extract_outputs, read_readme.
  intros ->. simpl.
  unfold spec_module_data, files_readable, file_blocks, file_text.
  destruct (file_at tree d (lit "variables.tf")) as [[c1|e1]|];
    destruct (file_at tree d (lit "outputs.tf")) as [[c2|e2]|];
    destruct (file_at tree d (lit "README.md")) as [[c3|e3]|];
    simpl; intros H; try discriminate H; reflexivity.
Qed.

Variable w : World.

(** An identifier that does not split into three segments is turned down
    before anything is done. *)
Lemma analyze_module_rejected (module_id : str) :
  length (split slash module_id) <> 3 ->
  analyze_module w module_id = ([], invalid_id_response module_id).
Proof.
  intros H. unfold analyze_module, analyze_module_try.
  apply Nat.eqb_neq in H. rewrite H. reflexivity.
Qed.

(** What the handler does with an identifier of three segments. *)
Lemma analyze_module_accepted (module_id namespace name provider : str) :
  split slash module_id = [namespace; name; provider] ->
  analyze_module w module_id =
    let url := details_url namespace name provider in
    match http_get w url with
    | Raised e => ([HttpGet url], error_response e)
    | Ok response =>
        if (status_code response =? 200)%Z then
          match json response with
          | Raised e => ([HttpGet url], error_response e)
          | Ok details =>
              let version := dict_get (lit "version") details [] in
              let trace := full_trace namespace name provider version in
              match subprocess_run w terraform_init
                      (manifest namespace name provider version) with
              | Raised e => (trace, error_response e)
              | Ok (process, tree) =>
                  if (returncode process =? 0)%Z then
                    match snd (extraction tree) with
                    | Raised e => (trace, error_response e)
                    | Ok module_data =>
                        (trace,
                         {| content :=
                              join [nl] (formatted_output module_id version
                                                          module_data);
                            metadata := Success module_id version module_data |})
                    end
                  else
                    (trace,
                     {| content := lit "Error downloading module: "
                                   ++ stderr process;
                        metadata := Failure (stderr process) |})
              end
          end
        else
          ([HttpGet url],
           {| content := lit "Error fetching module details: " ++ text response;
              metadata := Failure (text response) |})
    end.
Proof.
  intros H. unfold analyze_module, analyze_module_try. rewrite H.
  cbv [length Nat.eqb negb]. cbv zeta.
  unfold bind at 1, perform.
  destruct (http_get w (details_url namespace name provider)) as [response|e];
    [|reflexivity].
  destruct (status_code response =? 200)%Z; [|reflexivity].
  cbv [negb]. unfold bind at 1, lift.
  destruct (json response) as [details|e]; [|reflexivity].
  unfold materialize_and_extract, with_tempdir, full_trace. cbv zeta.
  destruct (subprocess_run w terraform_init
              (manifest namespace name provider (dict_get (lit "version") details [])))
    as [[process tree]|e]; [|reflexivity].
  cbv beta iota delta [bind perform].
  destruct (returncode process =? 0)%Z; [|reflexivity].
  cbv [negb]. pose proof (extraction_trace tree) as Ht.
  destruct (extraction tree) as [t [module_data|e]]; simpl in Ht; subst t;
    reflexivity.
Qed.

Lemma fold_left_sections {A} (f : A -> list str) (l : list A) :
  forall init, fold_left (fun out x => out ++ f x) l init = init ++ flat_map f l.
Proof.
  induction l as [|x l IH]; intros init; simpl.
  - now rewrite app_nil_r.
  - now rewrite IH, app_assoc.
Qed.

Lemma fold_left_ext {A B} (f g : A -> B -> A) (l : list B) :
  (forall a b, f a b = g a b) ->
  forall init, fold_left f l init = fold_left g l init.
Proof.
  intros H. induction l as [|x l IH]; intros init; simpl; [easy|].
  now rewrite H, IH.
Qed.

(** The list the handler builds is the layout of the specification. *)
Lemma formatted_output_spec (module_id version : str) (module_data : ModuleData) :
  formatted_output module_id version module_data
  = spec_report module_id version module_data.
Proof.
  unfold formatted_output, spec_report. cbv zeta.
  rewrite (fold_left_ext _ (fun out x => out ++ input_section x)
             (inputs module_data));
    [|intros a b; unfold input_section, dict_get, default_to;
      now rewrite <- !app_assoc].
  rewrite fold_left_sections.
  rewrite (fold_left_ext _ (fun out x => out ++ output_section x)
             (outputs module_data));
    [|intros a b; unfold output_section, dict_get, default_to;
      now rewrite <- !app_assoc].
  rewrite fold_left_sections.
  unfold truncate_readme, spec_readme_section, readme_limit.
  now rewrite <- !app_assoc.
Qed.

(** A successful analysis went through every stage. *)
Lemma analyze_module_success_inv (module_id mid version : str)
    (module_data : ModuleData) :
  metadata (snd (analyze_module w module_id)) = Success mid version module_data ->
  exists namespace name provider response details process tree d,
    split slash module_id = [namespace; name; provider]
    /\ http_get w (details_url namespace name provider) = Ok response
    /\ status_code response = 200%Z
    /\ json response = Ok details
    /\ version = dict_get (lit "version") details []
    /\ subprocess_run w terraform_init (manifest namespace name provider version)
       = Ok (process, tree)
    /\ returncode process = 0%Z
    /\ find_module_dir tree = Ok d
    /\ files_readable tree d = true
    /\ module_data = spec_module_data tree d
    /\ mid = module_id
    /\ analyze_module w module_id
       = (full_trace namespace name provider version,
          {| content := join [nl] (formatted_output module_id version module_data);
             metadata := Success module_id version module_data |}).
Proof.
  destruct (Nat.eq_dec (length (split slash module_id)) 3) as [Hlen|Hlen];
    [|rewrite (analyze_module_rejected _ Hlen); discriminate].
  destruct (split slash module_id) as [|namespace [|name [|provider [|]]]] eqn:Hs;
    try discriminate Hlen.
  rewrite (analyze_module_accepted _ _ _ _ Hs). cbv zeta.
  destruct (http_get w (details_url namespace name provider))
    as [response|e] eqn:Hget; [|discriminate].
  destruct (status_code response =? 200)%Z eqn:Hst; [|discriminate].
  destruct (json response) as [details|e] eqn:Hj; [|discriminate].
  destruct (subprocess_run w terraform_init
              (manifest namespace name provider (dict_get (lit "version") details [])))
    as [[process tree]|e] eqn:Hrun; [|discriminate].
  destruct (returncode process =? 0)%Z eqn:Hrc; [|discriminate].
  destruct (snd (extraction tree)) as [md|e] eqn:Hex; [|discriminate].
  simpl. intros H. injection H as <- <- <-.
  destruct (extraction_inv _ _ Hex) as (d & Hd & Hr & Hmd).
  apply Z.eqb_eq in Hst, Hrc.
  exists namespace, name, provider, response, details, process, tree, d.
  repeat split; assumption.
Qed.

End Handler.

(** ** Numerals and joined lines *)

Section Rendering.

Lemma decimal_value_of_uint (d : Decimal.uint) : forall acc,
  decimal_value_from acc (lit (NilEmpty.string_of_uint d)) = Nat.of_uint_acc d acc.
Proof.
  induction d; intros acc; simpl; [reflexivity|..];
    change (lit (String ?c ?s)) with (N_of_ascii c :: lit s);
    cbn [decimal_value_from]; rewrite IHd; f_equal;
    rewrite Nat.tail_mul_spec; simpl N.to_nat; lia.
Qed.

Lemma digits_of_uint (d : Decimal.uint) :
  forallb is_digit (lit (NilEmpty.string_of_uint d)) = true.
Proof. induction d; simpl; [reflexivity|..]; exact IHd. Qed.

Lemma to_uint_normal (n : nat) : Nat.to_uint n = Decimal.unorm (Nat.to_uint n).
Proof.
  rewrite <- DecimalNat.Unsigned.to_of. now rewrite DecimalNat.Unsigned.of_to.
Qed.

Lemma normal_no_leading_zero (d d' : Decimal.uint) :
  Decimal.unorm d = d -> d = Decimal.D0 d' -> d' = Decimal.Nil.
Proof.
  intros H ->. rewrite DecimalFacts.unorm_D0 in H. unfold Decimal.unorm in H.
  destruct (Decimal.nzhead d') eqn:E; try discriminate H.
  - now injection H as <-.
  - exfalso. now apply (DecimalFacts.nzhead_nonzero _ _ E).
Qed.

(** The number an f-string prints is the canonical numeral of that number. *)
Lemma str_of_nat_decimal (n : nat) : decimal_of n (str_of_nat n).
Proof.
  unfold decimal_of, str_of_nat, decimal_value, canonical_decimal.
  pose proof (to_uint_normal n) as Hn.
  pose proof (DecimalNat.Unsigned.of_to n) as Hv.
  assert (Hnil : Nat.to_uint n <> Decimal.Nil).
  { rewrite Hn. apply DecimalFacts.unorm_nonnil. }
  unfold NilZero.string_of_uint.
  destruct (Nat.to_uint n) as [|d|d|d|d|d|d|d|d|d|d] eqn:E; try easy;
    (split; [|rewrite decimal_value_of_uint; exact Hv]);
    rewrite digits_of_uint; try reflexivity.
  rewrite (normal_no_leading_zero (Decimal.D0 d) d (eq_sym Hn) eq_refl).
  reflexivity.
Qed.

(** Joining lines of which the last is [x]: every other line is followed by
    the separator. *)
Lemma join_lines (sep x : str) (l : list str) :
  join sep (l ++ [x]) = concat (map (fun s => s ++ sep) l) ++ x.
Proof.
  induction l as [|p l IH]; [reflexivity|].
  change ((p :: l) ++ [x]) with (p :: (l ++ [x])).
  replace (join sep (p :: (l ++ [x]))) with (p ++ sep ++ join sep (l ++ [x]))
    by (destruct l; reflexivity).
  rewrite IH. simpl. now rewrite <- !app_assoc.
Qed.

Lemma join_last (sep q : str) (l : list str) :
  l <> [] -> join sep (l ++ [q]) = join sep l ++ sep ++ q.
Proof. destruct l as [|p l]; [easy|]. intros _. apply join_snoc. Qed.

Lemma concat_lines_app (sep : str) (a b : list str) :
  concat (map (fun s => s ++ sep) (a ++ b))
  = concat (map (fun s => s ++ sep) a) ++ concat (map (fun s => s ++ sep) b).
Proof. now rewrite map_app, concat_app. Qed.

Lemma input_section_of_block (name block : str) :
  input_section (variable_of_block name block)
  = [lit "### " ++ name;
     lit "- **Description:** "
     ++ default_to (lit "No description provided") (description_of block);
     lit "- **Type:** " ++ default_to (lit "any") (line_value (lit "type") block);
     lit "- **Default:** "
     ++ default_to (lit "no default") (line_value (lit "default") block) ++ [nl]].
Proof.
  unfold input_section.
  destruct (variable_fields name block) as (-> & -> & -> & ->). reflexivity.
Qed.

Lemma output_section_of_block (name block : str) :
  output_section (output_of_block name block)
  = [lit "### " ++ name;
     lit "- **Description:** "
     ++ default_to (lit "No description provided") (description_of block) ++ [nl]].
Proof.
  unfold output_section.
  destruct (output_fields name block) as (-> & -> & _). reflexivity.
Qed.

Lemma input_sections_text (var_blocks : list (str * str)) :
  concat (map (fun s => s ++ [nl])
            (flat_map input_section
               (map (fun '(name, block) => variable_of_block name block) var_blocks)))
  = concat (map (fun '(name, block) => input_text name block) var_blocks).
Proof.
  induction var_blocks as [|[name block] l IH]; [reflexivity|].
  cbn [map flat_map concat]. rewrite concat_lines_app, IH, input_section_of_block.
  f_equal. unfold input_text. cbn [map concat].
  now rewrite app_nil_r, <- !app_assoc.
Qed.

Lemma output_sections_text (out_blocks : list (str * str)) :
  concat (map (fun s => s ++ [nl])
            (flat_map output_section
               (map (fun '(name, block) => output_of_block name block) out_blocks)))
  = concat (map (fun '(name, block) => output_text name block) out_blocks).
Proof.
  induction out_blocks as [|[name block] l IH]; [reflexivity|].
  cbn [map flat_map concat]. rewrite concat_lines_app, IH, output_section_of_block.
  f_equal. unfold output_text. cbn [map concat].
  now rewrite app_nil_r, <- !app_assoc.
Qed.

(** The rendered report of a module, as text. *)
Lemma rendered_report (module_id version : str) (tree : modules_tree) (d : str) :
  join [nl] (formatted_output module_id version (spec_module_data tree d))
  = report_text module_id version
      (str_of_nat (length (file_blocks (lit "variable") tree d (lit "variables.tf"))))
      (str_of_nat (length (file_blocks (lit "output") tree d (lit "outputs.tf"))))
      (file_blocks (lit "variable") tree d (lit "variables.tf"))
      (file_blocks (lit "output") tree d (lit "outputs.tf"))
      (spec_readme_section (file_text tree d (lit "README.md"))).
Proof.
  rewrite formatted_output_spec. unfold spec_report, spec_module_data.
  cbn [inputs outputs readme]. rewrite !length_map.
  rewrite !app_assoc. rewrite join_lines. rewrite <- !app_assoc.
  rewrite !concat_lines_app, input_sections_text, output_sections_text.
  unfold report_text. cbn [map concat]. now rewrite ?app_nil_r, <- !app_assoc.
Qed.

End Rendering.

(** * The pipeline, property by property *)

(** ** Block extraction on the specification's example *)

(** C4, as stated: the body would be the description line alone. It is not:
    the newline after the opening brace belongs to the body. *)
Lemma foo_body_not_description_line :
  blocks (lit "variable") foo_source <> [(lit "foo", foo_description_line)].
Proof. vm_compute. discriminate. Qed.

(** C4, amended: on the specification's example text, block extraction
    returns exactly one block, named foo, whose body is everything between
    the braces: the newline that follows the opening brace, then the
    description line with its newline. *)
Theorem foo_block_extracted :
  blocks (lit "variable") foo_source
  = [(lit "foo", [nl] ++ foo_description_line)].
Proof. vm_compute. reflexivity. Qed.

(** ** Single-level brace matching *)

(** C6: every extracted body is free of closing braces and is the text
    between an opening brace and the first closing brace after it; so for a
    block whose body holds a nested sub-block [before { inner } after], the
    extracted body is [before { inner], cut at the sub-block's closing brace,
    and the scan goes on with what follows that brace. *)
Theorem nested_brace_truncation :
  (forall keyword content name body,
     In (name, body) (blocks keyword content) ->
     free_of rbrace body = true
     /\ exists pre ws1 ws2 post,
          content = pre ++ block_text keyword ws1 name ws2 body ++ post
          /\ block_shape ws1 name ws2 body = true)
  /\ (forall keyword pre ws1 name ws2 before inner after post,
        let cut := before ++ [lbrace] ++ inner in
        let follows := after ++ [rbrace] ++ post in
        block_shape ws1 name ws2 cut = true ->
        clear_before (block_pattern keyword) pre
                     (block_text keyword ws1 name ws2 cut ++ follows) = true ->
        blocks keyword (pre ++ block_text keyword ws1 name ws2 cut ++ follows)
        = (name, cut) :: blocks keyword follows).
Proof.
  split.
  - intros keyword content name body H.
    destruct (blocks_inv keyword _ _ _ H) as (pre & ws1 & ws2 & post & E & Hs).
    split; [|now exists pre, ws1, ws2, post].
    apply block_shape_spec in Hs. tauto.
  - intros keyword pre ws1 name ws2 before inner after post cut follows Hs Hc.
    rewrite (blocks_clear keyword _ _ Hc).
    destruct (blocks_hit keyword _ _ _ _
                (block_match_first keyword ws1 name ws2 cut follows Hs))
      as (n & b & E & ->).
    now injection E as <- <-.
Qed.

Lemma nested_brace_truncation_witness :
  blocks (lit "variable") port_source
  = [(lit "port", port_before ++ [lbrace] ++ port_inner)].
Proof.
  unfold port_source.
  rewrite (proj2 nested_brace_truncation (lit "variable")
             (lit "# listening port" ++ [nl]) (lit " ") (lit "port") (lit " ")
             port_before port_inner [nl] [nl]);
    reflexivity.
Defined.

(** ** Blocks with an empty body *)

(** C10: the block pattern does not match where a block with an empty pair of
    braces stands, so the scan passes over it without an entry; every entry
    that is extracted has at least one character between its braces; and a
    source that is such a block and nothing else yields no entry at all. *)
Theorem empty_body_not_extracted :
  (forall keyword ws1 name ws2 rest,
     whitespace ws1 = true -> free_of dq name = true -> whitespace ws2 = true ->
     let text := empty_block_text keyword ws1 name ws2 ++ rest in
     match_at (block_pattern keyword) text = None
     /\ forall pre,
          clear_before (block_pattern keyword) pre text = true ->
          blocks keyword (pre ++ text) = blocks keyword (tl text))
  /\ (forall keyword content name body,
        In (name, body) (blocks keyword content) -> body <> [])
  /\ (forall keyword ws1 name ws2,
        free_of lbrace (keyword ++ ws1 ++ [dq] ++ name ++ [dq] ++ ws2) = true ->
        blocks keyword (empty_block_text keyword ws1 name ws2) = []).
Proof.
  split; [|split].
  - intros keyword ws1 name ws2 rest Hs1 Hq Hs2 text.
    assert (Hnone : match_at (block_pattern keyword) text = None).
    { unfold text, empty_block_text. rewrite <- !app_assoc.
      now apply empty_body_no_match. }
    split; [exact Hnone|]. intros pre Hc.
    rewrite (blocks_clear keyword _ _ Hc). unfold blocks.
    destruct text as [|c text']; [reflexivity|].
    now rewrite (findall_miss _ _ _ Hnone).
  - intros keyword content name body H.
    destruct (blocks_inv keyword _ _ _ H) as (pre & ws1 & ws2 & post & _ & Hs).
    apply block_shape_spec in Hs. tauto.
  - intros keyword ws1 name ws2 H.
    replace (empty_block_text keyword ws1 name ws2)
      with ((keyword ++ ws1 ++ [dq] ++ name ++ [dq] ++ ws2) ++ [lbrace; rbrace])
      by (unfold empty_block_text; rewrite <- !app_assoc; reflexivity).
    now apply blocks_empty_pair.
Qed.

Lemma empty_body_not_extracted_witness :
  match_at (block_pattern (lit "variable"))
           (empty_block_text (lit "variable") (lit " ") (lit "x") (lit " ")
            ++ [nl] ++ foo_source) = None
  /\ blocks (lit "variable")
            (empty_block_text (lit "variable") (lit " ") (lit "x") (lit " ")
             ++ [nl] ++ foo_source)
     = [(lit "foo", [nl] ++ foo_description_line)].
Proof.
  destruct (proj1 empty_body_not_extracted (lit "variable") (lit " ") (lit "x")
              (lit " ") ([nl] ++ foo_source) eq_refl eq_refl eq_refl)
    as [Hnone Hscan].
  split; [exact Hnone|].
  etransitivity; [exact (Hscan [] eq_refl)|]. vm_compute. reflexivity.
Defined.

(** End to end: a variables.tf that holds only [variable "x" {}] gives an
    analysis without inputs. *)
Example lone_empty_block_no_input :
  metadata (snd (analyze_module (world_with lone_empty_block_tree)
                                (lit "hashicorp/consul/aws")))
  = Success (lit "hashicorp/consul/aws") (lit "1.2.0")
      {| inputs := []; outputs := []; resources := []; readme := [] |}.
Proof. vm_compute. reflexivity. Qed.

(** ** Attributes of a block *)




(** ** The identifier *)

(** C1, as stated: only identifiers of three non-empty segments would be
    accepted. The identifier a//b has an empty middle segment and is not
    turned down: the handler goes on to ask the registry about it. *)
Lemma empty_segment_accepted :
  forallb nonempty (split slash (lit "a//b")) = false
  /\ analyze_module registry_404 (lit "a//b")
     <> ([], invalid_id_response (lit "a//b"))
  /\ fst (analyze_module registry_404 (lit "a//b"))
     = [HttpGet (lit "https://registry.terraform.io/v1/modules/a//b")].
Proof.
  split; [reflexivity|]. split; [|reflexivity].
  vm_compute. discriminate.
Qed.

(** C1, amended: the identifier is accepted if and only if splitting it on
    the slash yields exactly three segments, empty ones included, that is,
    if and only if it holds exactly two slashes; an identifier ns/name/provider
    is taken apart into exactly ns, name and provider, and the registry is
    asked about these; any other identifier is answered with the
    invalid-identifier response, with success false, returned before any
    effect is performed. *)
Theorem identifier_parsing (w : World) (module_id : str) :
  (length (split slash module_id) <> 3 ->
   analyze_module w module_id = ([], invalid_id_response module_id)
   /\ success (metadata (snd (analyze_module w module_id))) = false)
  /\ (length (split slash module_id) = 3
      <-> analyze_module w module_id <> ([], invalid_id_response module_id))
  /\ (forall namespace name provider,
        split slash module_id = [namespace; name; provider]
        <-> module_id = namespace ++ [slash] ++ name ++ [slash] ++ provider
            /\ free_of slash namespace = true /\ free_of slash name = true
            /\ free_of slash provider = true)
  /\ (forall namespace name provider,
        split slash module_id = [namespace; name; provider] ->
        exists trace response,
          analyze_module w module_id
          = (HttpGet (details_url namespace name provider) :: trace, response)).
Proof.
  assert (Hacc : forall namespace name provider,
             split slash module_id = [namespace; name; provider] ->
             exists trace response,
               analyze_module w module_id
               = (HttpGet (details_url namespace name provider) :: trace, response)).
  { intros namespace name provider Hs.
    rewrite (analyze_module_accepted w _ _ _ _ Hs). cbv zeta.
    destruct (http_get w _) as [response|e]; [|now eexists _, _].
    destruct (status_code response =? 200)%Z; [|now eexists _, _].
    destruct (json response) as [details|e]; [|now eexists _, _].
    unfold full_trace.
    destruct (subprocess_run w _ _) as [[process tree]|e]; [|now eexists _, _].
    destruct (returncode process =? 0)%Z; [|now eexists _, _].
    destruct (snd (extraction tree)); now eexists _, _. }
  split; [|split; [|split]].
  - intros H. rewrite (analyze_module_rejected w _ H). easy.
  - split.
    + intros Hlen.
      destruct (split slash module_id) as [|a [|b [|c [|]]]] eqn:Hs;
        try discriminate Hlen.
      destruct (Hacc a b c eq_refl) as (trace & response & ->). discriminate.
    + intros H.
      destruct (Nat.eq_dec (length (split slash module_id)) 3) as [E|E]; [easy|].
      now rewrite (analyze_module_rejected w _ E) in H.
  - intros namespace name provider. apply split3_iff.
  - exact Hacc.
Qed.

Lemma identifier_parsing_witness :
  analyze_module registry_404 (lit "hashicorp/consul")
  = ([], invalid_id_response (lit "hashicorp/consul"))
  /\ exists trace response,
       analyze_module registry_404 (lit "hashicorp/consul/aws")
       = (HttpGet (details_url (lit "hashicorp") (lit "consul") (lit "aws")) :: trace,
          response).
Proof.
  split.
  - apply (proj1 (identifier_parsing registry_404 (lit "hashicorp/consul"))).
    vm_compute. discriminate.
  - apply (proj2 (proj2 (proj2
             (identifier_parsing registry_404 (lit "hashicorp/consul/aws"))))).
    reflexivity.
Defined.

(** ** Registry failure *)

(** C2: when the registry answers the details request with a status other
    than 200, the result has success false, its message is the fixed prefix
    followed by the response body as it is, and the request is the only
    effect of the call: no subprocess is run. *)
Theorem registry_failure (w : World) (module_id namespace name provider : str)
    (response : Response) :
  split slash module_id = [namespace; name; provider] ->
  http_get w (details_url namespace name provider) = Ok response ->
  status_code response <> 200%Z ->
  success (metadata (snd (analyze_module w module_id))) = false
  /\ content (snd (analyze_module w module_id))
     = lit "Error fetching module details: " ++ text response
  /\ metadata (snd (analyze_module w module_id)) = Failure (text response)
  /\ fst (analyze_module w module_id)
     = [HttpGet (details_url namespace name provider)]
  /\ forall cmd, ~ In (SubprocessRun cmd) (fst (analyze_module w module_id)).
Proof.
  intros Hs Hget Hst. rewrite (analyze_module_accepted w _ _ _ _ Hs). cbv zeta.
  rewrite Hget. apply Z.eqb_neq in Hst. rewrite Hst.
  repeat split. intros cmd [H|[]]. discriminate H.
Qed.

Lemma registry_failure_witness :
  success (metadata (snd (analyze_module registry_404
                                         (lit "hashicorp/consul/aws")))) = false
  /\ content (snd (analyze_module registry_404 (lit "hashicorp/consul/aws")))
     = lit "Error fetching module details: {errors:[Not Found]}"
  /\ forall cmd,
       ~ In (SubprocessRun cmd)
            (fst (analyze_module registry_404 (lit "hashicorp/consul/aws"))).
Proof.
  destruct (registry_failure registry_404 (lit "hashicorp/consul/aws")
              (lit "hashicorp") (lit "consul") (lit "aws")
              {| status_code := 404; text := lit "{errors:[Not Found]}";
                 json := Ok [] |}
              eq_refl eq_refl ltac:(discriminate))
    as (H1 & H2 & _ & _ & H5).
  now repeat split.
Defined.

(** ** Extraction gaps *)

(** C3, as stated: with no module directory found the analysis would still
    succeed, and the extraction stages would never fail the operation.
    Neither holds throughout: when the download leaves no modules directory
    to scan, listing it raises, and when a file of the module is there but
    cannot be read as text, reading it raises; both end in the failure
    response of the handler. *)
Lemma extraction_can_fail :
  success (metadata (snd (analyze_module (world_with no_modules_dir)
                                         (lit "hashicorp/consul/aws")))) = false
  /\ success (metadata (snd (analyze_module (world_with undecodable_readme)
                                            (lit "hashicorp/consul/aws")))) = false.
Proof. split; vm_compute; reflexivity. Qed.

(** C3, amended: once the registry has answered 200 with a document and the
    download has exited with 0, and provided the modules directory can be
    listed: if it holds neither the conventional entry nor an entry whose
    name starts with the reference name, the analysis succeeds with empty
    inputs, outputs and README; in any case a module directory is settled
    on, and whenever each of its three files is either missing or readable
    the analysis succeeds, a missing file contributing nothing and a
    readable one its blocks or its text, whatever it contains; when one of
    the three files is there and cannot be read, the result has success
    false. *)
Theorem extraction_gaps (w : World) (module_id namespace name provider : str)
    (response : Response) (details : list (str * str))
    (process : CompletedProcess) (tree : modules_tree) :
  let version := dict_get (lit "version") details [] in
  split slash module_id = [namespace; name; provider] ->
  http_get w (details_url namespace name provider) = Ok response ->
  status_code response = 200%Z ->
  json response = Ok details ->
  subprocess_run w terraform_init (manifest namespace name provider version)
  = Ok (process, tree) ->
  returncode process = 0%Z ->
  (forall entries,
     tree = Ok entries ->
     lookup (lit "analyzed_module") entries = None ->
     find (fun d => startswith d (lit "analyzed_module")) (map fst entries) = None ->
     metadata (snd (analyze_module w module_id))
     = Success module_id version
         {| inputs := []; outputs := []; resources := []; readme := [] |})
  /\ (forall entries,
        tree = Ok entries ->
        exists d,
          find_module_dir tree = Ok d
          /\ (files_readable tree d = true ->
              metadata (snd (analyze_module w module_id))
              = Success module_id version (spec_module_data tree d))
          /\ (files_readable tree d = false ->
              success (metadata (snd (analyze_module w module_id))) = false))
  /\ (forall d,
        find_module_dir tree = Ok d -> files_readable tree d = true ->
        metadata (snd (analyze_module w module_id))
        = Success module_id version (spec_module_data tree d))
  /\ (forall d,
        find_module_dir tree = Ok d -> files_readable tree d = false ->
        success (metadata (snd (analyze_module w module_id))) = false).
Proof.
  intros version Hs Hget Hst Hj Hrun Hrc.
  assert (Hgen : forall d,
             find_module_dir tree = Ok d -> files_readable tree d = true ->
             metadata (snd (analyze_module w module_id))
             = Success module_id version (spec_module_data tree d)).
  { intros d Hd Hr. rewrite (analyze_module_accepted w _ _ _ _ Hs). cbv zeta.
    rewrite Hget, Hst, Hj. fold version. rewrite Hrun, Hrc.
    rewrite Z.eqb_refl. simpl. now rewrite (extraction_readable _ _ Hd Hr). }
  assert (Hbad : forall d,
             find_module_dir tree = Ok d -> files_readable tree d = false ->
             success (metadata (snd (analyze_module w module_id))) = false).
  { intros d Hd Hr.
    destruct (metadata (snd (analyze_module w module_id)))
      as [e|mid v md] eqn:Hm; [reflexivity|].
    destruct (analyze_module_success_inv w _ _ _ _ Hm)
      as (ns' & n' & p' & response' & details' & process' & tree' & d'
          & Hs' & Hget' & _ & Hj' & Hv' & Hrun' & _ & Hd' & Hr' & _).
    rewrite Hs in Hs'. injection Hs' as <- <- <-.
    rewrite Hget in Hget'. injection Hget' as <-.
    rewrite Hj in Hj'. injection Hj' as <-. subst v. fold version in Hrun'.
    rewrite Hrun in Hrun'. injection Hrun' as <- <-.
    rewrite Hd in Hd'. injection Hd' as <-. congruence. }
  split; [|split; [|split; [exact Hgen|exact Hbad]]].
  - intros entries -> Hconv Hscan.
    assert (Hd : find_module_dir (Ok entries) = Ok (lit "analyzed_module")).
    { unfold find_module_dir, dir_exists, listdir. now rewrite Hconv, Hscan. }
    assert (Hfiles : forall file,
               file_at (Ok entries) (lit "analyzed_module") file = None).
    { intros file. unfold file_at. now rewrite Hconv. }
    rewrite (Hgen _ Hd).
    + unfold spec_module_data, file_blocks, file_text. now rewrite !Hfiles.
    + unfold files_readable. now rewrite !Hfiles.
  - intros entries E.
    assert (Hd : exists d, find_module_dir tree = Ok d).
    { subst tree. unfold find_module_dir, dir_exists, listdir.
      destruct (lookup (lit "analyzed_module") entries); simpl; [now eexists|].
      destruct (find _ (map fst entries)); now eexists. }
    destruct Hd as (d & Hd). exists d. split; [exact Hd|]. split.
    + now apply Hgen.
    + now apply Hbad.
Qed.

Lemma extraction_gaps_witness :
  metadata (snd (analyze_module (world_with module_missing)
                                (lit "hashicorp/consul/aws")))
  = Success (lit "hashicorp/consul/aws") (lit "1.2.0")
      {| inputs := []; outputs := []; resources := []; readme := [] |}.
Proof.
  apply (proj1 (extraction_gaps (world_with module_missing)
                  (lit "hashicorp/consul/aws")
                  (lit "hashicorp") (lit "consul") (lit "aws")
                  {| status_code := 200; text := lit "{version:1.2.0}";
                     json := Ok [(lit "version", lit "1.2.0")] |}
                  [(lit "version", lit "1.2.0")]
                  {| returncode := 0; stderr := [] |} module_missing
                  eq_refl eq_refl eq_refl eq_refl eq_refl eq_refl)
               [(lit "modules.json", RegularFile)] eq_refl eq_refl eq_refl).
Defined.

(** ** The report *)

(** C5: the rendered report ends with the README section: when the README
    has more than 2000 characters, the section is the heading followed by
    exactly the first 2000 characters and the truncation suffix, and when it
    has at most 2000, the heading followed by the README as it is, with no
    suffix. This holds for the text rendered from any module data, hence for
    every README, and for the content of every successful analysis. *)
Theorem readme_truncation :
  (forall module_id version module_data,
     ends_with_readme_section
       (join [nl] (formatted_output module_id version module_data))
       (readme module_data))
  /\ (forall w module_id mid version module_data,
        metadata (snd (analyze_module w module_id))
        = Success mid version module_data ->
        ends_with_readme_section (content (snd (analyze_module w module_id)))
                                 (readme module_data))
  /\ (forall r : str, 2000 < length r -> length (firstn 2000 r) = 2000).
Proof.
  assert (Hrender : forall module_id version module_data,
             ends_with_readme_section
               (join [nl] (formatted_output module_id version module_data))
               (readme module_data)).
  { intros module_id version module_data.
    rewrite formatted_output_spec. unfold spec_report.
    match goal with
    | |- ends_with_readme_section (join _ (?a ++ ?b ++ ?c ++ ?d ++ ?e ++ [?x])) _ =>
        replace (a ++ b ++ c ++ d ++ e ++ [x]) with ((a ++ b ++ c ++ d ++ e) ++ [x])
          by (now rewrite <- !app_assoc)
    end.
    rewrite join_last by discriminate.
    unfold spec_readme_section. split.
    - intros H. apply Nat.ltb_lt in H. rewrite H. now eexists.
    - intros H. apply Nat.ltb_ge in H. rewrite H. now eexists. }
  split; [exact Hrender|]. split.
  - intros w module_id mid version module_data H.
    destruct (analyze_module_success_inv w _ _ _ _ H)
      as (? & ? & ? & ? & ? & ? & ? & ? & _ & _ & _ & _ & _ & _ & _ & _ & _ & _
          & -> & ->).
    apply Hrender.
  - intros r H. apply firstn_length_le. lia.
Qed.

Lemma readme_truncation_witness :
  exists head,
    content (snd (analyze_module (world_with long_readme_tree)
                                 (lit "hashicorp/consul/aws")))
    = head ++ [nl] ++ lit "## README" ++ [nl; nl] ++ repeat 120%N 2000
      ++ lit "..." ++ [nl; nl] ++ lit "(README truncated due to length)".
Proof.
  assert (Hmeta : metadata (snd (analyze_module (world_with long_readme_tree)
                                                (lit "hashicorp/consul/aws")))
                  = Success (lit "hashicorp/consul/aws") (lit "1.2.0")
                      {| inputs := []; outputs := []; resources := [];
                         readme := long_readme |})
    by (vm_compute; reflexivity).
  destruct (proj1 (proj1 (proj2 readme_truncation) _ _ _ _ _ Hmeta))
    as (head & ->).
  - simpl readme. unfold long_readme. rewrite repeat_length. lia.
  - exists head. simpl readme.
    replace (firstn 2000 long_readme) with (repeat 120%N 2000)
      by (vm_compute; reflexivity).
    reflexivity.
Defined.

(** C8: the content of every successful analysis is, character by
    character: the title, the version and the link; the heading Inputs with,
    between parentheses, the decimal numeral of the number of variable
    blocks extracted from variables.tf; one subsection per such block, in
    extraction order, showing its name and its extracted description, type
    and default, with No description provided, any and no default standing
    in for what was not extracted; the heading Outputs with the numeral of
    the number of output blocks extracted from outputs.tf; one subsection
    per such block with its name and its description under the same
    default; and the README section. The inputs and outputs of the module
    data are the descriptors of these same blocks. *)
Theorem report_layout (w : World) (module_id mid version : str)
    (module_data : ModuleData) :
  metadata (snd (analyze_module w module_id)) = Success mid version module_data ->
  exists namespace name provider process tree d inputs_count outputs_count,
    subprocess_run w terraform_init (manifest namespace name provider version)
    = Ok (process, tree)
    /\ find_module_dir tree = Ok d
    /\ inputs module_data
       = map (fun '(name, block) => variable_of_block name block)
             (file_blocks (lit "variable") tree d (lit "variables.tf"))
    /\ outputs module_data
       = map (fun '(name, block) => output_of_block name block)
             (file_blocks (lit "output") tree d (lit "outputs.tf"))
    /\ decimal_of (length (file_blocks (lit "variable") tree d (lit "variables.tf")))
                  inputs_count
    /\ decimal_of (length (file_blocks (lit "output") tree d (lit "outputs.tf")))
                  outputs_count
    /\ decimal_of (length (inputs module_data)) inputs_count
    /\ decimal_of (length (outputs module_data)) outputs_count
    /\ content (snd (analyze_module w module_id))
       = report_text module_id version inputs_count outputs_count
           (file_blocks (lit "variable") tree d (lit "variables.tf"))
           (file_blocks (lit "output") tree d (lit "outputs.tf"))
           (spec_readme_section (readme module_data)).
Proof.
  intros H.
  destruct (analyze_module_success_inv w _ _ _ _ H)
    as (namespace & name & provider & response & details & process & tree & d
        & _ & _ & _ & _ & _ & Hrun & _ & Hd & _ & Hmd & -> & Hres).
  exists namespace, name, provider, process, tree, d,
    (str_of_nat (length (file_blocks (lit "variable") tree d (lit "variables.tf")))),
    (str_of_nat (length (file_blocks (lit "output") tree d (lit "outputs.tf")))).
  subst module_data. cbn [inputs outputs readme spec_module_data].
  rewrite !length_map. rewrite Hres. cbn [snd content].
  rewrite rendered_report.
  repeat split; try assumption; apply str_of_nat_decimal.
Qed.

Lemma report_layout_witness :
  exists inputs_count outputs_count,
    decimal_of 2 inputs_count /\ decimal_of 0 outputs_count
    /\ content (snd (analyze_module (world_with two_variables_tree)
                                    (lit "hashicorp/consul/aws")))
       = report_text (lit "hashicorp/consul/aws") (lit "1.2.0")
           inputs_count outputs_count
           [(lit "region", [nl] ++ lit "  type = string" ++ [nl]);
            (lit "zone", [nl] ++ lit "  type = string" ++ [nl])]
           [] [].
Proof.
  destruct (report_layout (world_with two_variables_tree)
              (lit "hashicorp/consul/aws") (lit "hashicorp/consul/aws")
              (lit "1.2.0")
              (spec_module_data two_variables_tree (lit "analyzed_module")))
    as (namespace & name & provider & process & tree & d & ic & oc
        & Hrun & Hd & _ & _ & Hic & Hoc & _ & _ & Hcontent);
    [vm_compute; reflexivity|].
  simpl in Hrun. injection Hrun as _ <-.
  assert (E : d = lit "analyzed_module")
    by (vm_compute in Hd; now injection Hd as <-).
  subst d. exists ic, oc.
  split; [exact Hic|]. split; [exact Hoc|]. exact Hcontent.
Defined.

(** The report of these two variables, as it reads. *)
Example report_with_two_inputs :
  content (snd (analyze_module (world_with two_variables_tree)
                               (lit "hashicorp/consul/aws")))
  = lit "# Module Analysis: hashicorp/consul/aws" ++ [nl; nl]
    ++ lit "**Version:** 1.2.0" ++ [nl]
    ++ lit "**Registry Link:** https://registry.terraform.io/modules/hashicorp/consul/aws"
    ++ [nl; nl]
    ++ lit "## Inputs (2)" ++ [nl; nl]
    ++ lit "### region" ++ [nl]
    ++ lit "- **Description:** No description provided" ++ [nl]
    ++ lit "- **Type:** string" ++ [nl]
    ++ lit "- **Default:** no default" ++ [nl; nl]
    ++ lit "### zone" ++ [nl]
    ++ lit "- **Description:** No description provided" ++ [nl]
    ++ lit "- **Type:** string" ++ [nl]
    ++ lit "- **Default:** no default" ++ [nl; nl]
    ++ lit "## Outputs (0)" ++ [nl; nl]
    ++ lit "## README" ++ [nl; nl].
Proof. vm_compute. reflexivity. Qed.

(** ** Resources *)

(** C9: the module data of every successful analysis has the resources
    field, and it is the empty list: it starts empty and each of the three
    extraction stages hands it on unchanged. *)
Theorem resources_always_empty :
  (forall w module_id mid version module_data,
     metadata (snd (analyze_module w module_id))
     = Success mid version module_data ->
     resources module_data = [])
  /\ (forall tree d module_data module_data',
        (snd (extract_inputs tree d module_data) = Ok module_data'
         \/ snd (extract_outputs tree d module_data) = Ok module_data'
         \/ snd (read_readme tree d module_data) = Ok module_data') ->
        resources module_data' = resources module_data).
Proof.
  split.
  - intros w module_id mid version module_data H.
    destruct (analyze_module_success_inv w _ _ _ _ H)
      as (? & ? & ? & ? & ? & ? & tree & d & _ & _ & _ & _ & _ & _ & _ & _ & _
          & -> & _).
    reflexivity.
  - intros tree d module_data module_data'.
    unfold extract_inputs, extract_outputs, read_readme.
    intros [H|[H|H]];
      destruct (file_at tree d _) as [[c|e]|]; simpl in H;
      try discriminate H; injection H as <-; reflexivity.
Qed.

Lemma resources_always_empty_witness :
  resources (spec_module_data scenario_tree (lit "analyzed_module")) = []
  /\ metadata (snd (analyze_module (world_with scenario_tree)
                                   (lit "hashicorp/consul/aws")))
     = Success (lit "hashicorp/consul/aws") (lit "1.2.0")
         (spec_module_data scenario_tree (lit "analyzed_module")).
Proof.
  assert (H : metadata (snd (analyze_module (world_with scenario_tree)
                                            (lit "hashicorp/consul/aws")))
              = Success (lit "hashicorp/consul/aws") (lit "1.2.0")
                  (spec_module_data scenario_tree (lit "analyzed_module")))
    by (vm_compute; reflexivity).
  split; [exact (proj1 resources_always_empty _ _ _ _ _ H)|exact H].
Defined.

(** * Further properties of the handler *)

(** ** Outcomes and effects *)

(** X1: when the download exits with a status other than 0, the result has
    success false, its message is the fixed prefix followed by the standard
    error of the subprocess, the scratch directory has been removed, and
    whatever the subprocess left behind is not looked at. *)
Theorem download_failure (w : World) (module_id namespace name provider : str)
    (response : Response) (details : list (str * str))
    (process : CompletedProcess) (tree : modules_tree) :
  let version := dict_get (lit "version") details [] in
  split slash module_id = [namespace; name; provider] ->
  http_get w (details_url namespace name provider) = Ok response ->
  status_code response = 200%Z ->
  json response = Ok details ->
  subprocess_run w terraform_init (manifest namespace name provider version)
  = Ok (process, tree) ->
  returncode process <> 0%Z ->
  analyze_module w module_id
  = (full_trace namespace name provider version,
     {| content := lit "Error downloading module: " ++ stderr process;
        metadata := Failure (stderr process) |})
  /\ last (fst (analyze_module w module_id)) MkTempDir = RmTempDir.
Proof.
  intros version Hs Hget Hst Hj Hrun Hrc.
  rewrite (analyze_module_accepted w _ _ _ _ Hs). cbv zeta.
  rewrite Hget, Hst, Hj. fold version. rewrite Hrun.
  apply Z.eqb_neq in Hrc. rewrite Hrc. simpl. easy.
Qed.

Lemma download_failure_witness :
  analyze_module failed_download (lit "hashicorp/consul/aws")
  = (full_trace (lit "hashicorp") (lit "consul") (lit "aws") (lit "1.2.0"),
     {| content := lit "Error downloading module: Error: Module not found";
        metadata := Failure (lit "Error: Module not found") |}).
Proof.
  apply (download_failure failed_download (lit "hashicorp/consul/aws")
           (lit "hashicorp") (lit "consul") (lit "aws")
           {| status_code := 200; text := lit "{version:1.2.0}";
              json := Ok [(lit "version", lit "1.2.0")] |}
           [(lit "version", lit "1.2.0")]
           {| returncode := 1; stderr := lit "Error: Module not found" |}
           no_modules_dir eq_refl eq_refl eq_refl eq_refl eq_refl).
  discriminate.
Defined.

(** The five forms of a response are told apart by their first characters
    and by the metadata. *)
Lemma forms_exclusive (module_id : str) (r : MCPResponse) :
  let report := exists version module_data,
      r = {| content := join [nl] (formatted_output module_id version module_data);
             metadata := Success module_id version module_data |} in
  let invalid := r = invalid_id_response module_id in
  let fetch := exists e, failure_with (lit "Error fetching module details: ") e r in
  let download := exists e, failure_with (lit "Error downloading module: ") e r in
  let raised := exists e, r = error_response e in
  (report -> ~ invalid /\ ~ fetch /\ ~ download /\ ~ raised)
  /\ (invalid -> ~ fetch /\ ~ download /\ ~ raised)
  /\ (fetch -> ~ download /\ ~ raised)
  /\ (download -> ~ raised).
Proof.
  cbv zeta. unfold failure_with, invalid_id_response, error_response.
  assert (Hhd : forall a b : str, a = b -> firstn 7 a = firstn 7 b)
    by (intros a b ->; reflexivity).
  split; [|split; [|split]].
  - intros (v & md & ->). split; [|split; [|split]].
    + intros H. discriminate H.
    + intros (e & _ & H). discriminate H.
    + intros (e & _ & H). discriminate H.
    + intros (e & H). discriminate H.
  - intros ->. split; [|split].
    + intros (e & H & _). apply Hhd in H. cbv in H. discriminate H.
    + intros (e & H & _). apply Hhd in H. cbv in H. discriminate H.
    + intros (e & H). apply (f_equal content), Hhd in H. cbv in H.
      discriminate H.
  - intros (e & H & _). split.
    + intros (e' & H' & _). rewrite H in H'. apply Hhd in H'. cbv in H'.
      discriminate H'.
    + intros (e' & ->). apply Hhd in H. cbv in H. discriminate H.
  - intros (e & H & _) (e' & ->). apply Hhd in H. cbv in H. discriminate H.
Qed.

(** X2: the response that analyze_module returns has one of five forms, and
    no two of them at once: the report with success true; the
    invalid-identifier response; the registry failure; the download failure;
    or the response of the except clause. It is the invalid-identifier
    response exactly when the identifier does not split into three
    segments, the registry failure exactly when the registry answers an
    accepted identifier with a status other than 200 (the error being the
    response body), and the download failure exactly when, after an answer
    of 200 with a document, terraform init exits with a status other than 0
    (the error being its standard error). *)
Theorem outcome_taxonomy (w : World) (module_id : str) :
  let r := snd (analyze_module w module_id) in
  let report := exists version module_data,
      r = {| content := join [nl] (formatted_output module_id version module_data);
             metadata := Success module_id version module_data |} in
  let invalid := r = invalid_id_response module_id in
  let fetch e := failure_with (lit "Error fetching module details: ") e r in
  let download e := failure_with (lit "Error downloading module: ") e r in
  let raised := exists e, r = error_response e in
  (report \/ invalid \/ (exists e, fetch e) \/ (exists e, download e) \/ raised)
  /\ ((report -> ~ invalid /\ ~ (exists e, fetch e) /\ ~ (exists e, download e)
                 /\ ~ raised)
      /\ (invalid -> ~ (exists e, fetch e) /\ ~ (exists e, download e) /\ ~ raised)
      /\ ((exists e, fetch e) -> ~ (exists e, download e) /\ ~ raised)
      /\ ((exists e, download e) -> ~ raised))
  /\ (invalid <-> length (split slash module_id) <> 3)
  /\ (forall e,
        fetch e
        <-> exists namespace name provider response,
              split slash module_id = [namespace; name; provider]
              /\ http_get w (details_url namespace name provider) = Ok response
              /\ status_code response <> 200%Z
              /\ e = text response)
  /\ (forall e,
        download e
        <-> exists namespace name provider response details process tree,
              split slash module_id = [namespace; name; provider]
              /\ http_get w (details_url namespace name provider) = Ok response
              /\ status_code response = 200%Z
              /\ json response = Ok details
              /\ subprocess_run w terraform_init
                   (manifest namespace name provider
                             (dict_get (lit "version") details []))
                 = Ok (process, tree)
              /\ returncode process <> 0%Z
              /\ e = stderr process).
Proof.
  intros r report invalid fetch download raised.
  pose proof (forms_exclusive module_id r) as Hex. cbv zeta in Hex.
  fold report invalid raised in Hex.
  destruct Hex as (Hrep & Hinv & Hfet & Hdow).
  split; [|split; [exact (conj Hrep (conj Hinv (conj Hfet Hdow)))|]].
  { (* one of the five *)
    subst r report invalid fetch download raised.
    destruct (Nat.eq_dec (length (split slash module_id)) 3) as [Hlen|Hlen];
      [|rewrite (analyze_module_rejected w _ Hlen); auto].
    destruct (split slash module_id) as [|namespace [|name [|provider [|]]]] eqn:Hs;
      try discriminate Hlen.
    rewrite (analyze_module_accepted w _ _ _ _ Hs). cbv zeta.
    destruct (http_get w _) as [response|e]; [|do 4 right; now exists e].
    destruct (status_code response =? 200)%Z;
      [|do 2 right; left; now exists (text response)].
    destruct (json response) as [details|e]; [|do 4 right; now exists e].
    destruct (subprocess_run w _ _) as [[process tree]|e];
      [|do 4 right; now exists e].
    destruct (returncode process =? 0)%Z;
      [|do 3 right; left; now exists (stderr process)].
    destruct (snd (extraction tree)) as [module_data|e];
      [|do 4 right; now exists e].
    left. now eexists _, module_data. }
  assert (Hcases :
            (length (split slash module_id) <> 3 /\ invalid)
            \/ exists namespace name provider,
                 split slash module_id = [namespace; name; provider]
                 /\ ((exists e, http_get w (details_url namespace name provider)
                                = Raised e /\ raised)
                     \/ exists response,
                          http_get w (details_url namespace name provider)
                          = Ok response
                          /\ ((status_code response <> 200%Z
                               /\ fetch (text response))
                              \/ (status_code response = 200%Z
                                  /\ ((exists e, json response = Raised e /\ raised)
                                      \/ exists details,
                                           json response = Ok details
                                           /\ ((exists e,
                                                  subprocess_run w terraform_init
                                                    (manifest namespace name provider
                                                       (dict_get (lit "version")
                                                                 details []))
                                                  = Raised e /\ raised)
                                               \/ exists process tree,
                                                    subprocess_run w terraform_init
                                                      (manifest namespace name provider
                                                         (dict_get (lit "version")
                                                                   details []))
                                                    = Ok (process, tree)
                                                    /\ ((returncode process <> 0%Z
                                                         /\ download (stderr process))
                                                        \/ (returncode process = 0%Z
                                                            /\ (report \/ raised))))))))).
  { subst r report invalid fetch download raised.
    destruct (Nat.eq_dec (length (split slash module_id)) 3) as [Hlen|Hlen];
      [|left; split; [exact Hlen|]; now rewrite (analyze_module_rejected w _ Hlen)].
    right.
    destruct (split slash module_id) as [|namespace [|name [|provider [|]]]] eqn:Hs;
      try discriminate Hlen.
    exists namespace, name, provider. split; [reflexivity|].
    rewrite (analyze_module_accepted w _ _ _ _ Hs). cbv zeta.
    destruct (http_get w _) as [response|e]; [|left; exists e; split; [reflexivity|now exists e]].
    right. exists response. split; [reflexivity|].
    destruct (status_code response =? 200)%Z eqn:Hst;
      [apply Z.eqb_eq in Hst|apply Z.eqb_neq in Hst; left; now repeat split].
    right. split; [exact Hst|].
    destruct (json response) as [details|e]; [|left; exists e; split; [reflexivity|now exists e]].
    right. exists details. split; [reflexivity|].
    destruct (subprocess_run w _ _) as [[process tree]|e];
      [|left; exists e; split; [reflexivity|now exists e]].
    right. exists process, tree. split; [reflexivity|].
    destruct (returncode process =? 0)%Z eqn:Hrc;
      [apply Z.eqb_eq in Hrc|apply Z.eqb_neq in Hrc; left; now repeat split].
    right. split; [exact Hrc|].
    destruct (snd (extraction tree)) as [module_data|e];
      [left; now eexists _, module_data|right; now exists e]. }
  assert (Hfetch1 : forall e e', fetch e -> fetch e' -> e = e').
  { intros e e' [_ H] [_ H']. rewrite H in H'. now injection H'. }
  assert (Hdown1 : forall e e', download e -> download e' -> e = e').
  { intros e e' [_ H] [_ H']. rewrite H in H'. now injection H'. }
  split; [|split].
  - (* invalid *)
    split.
    + intros Hi Hlen.
      destruct Hcases as [[Hne _]|(ns & n & p & Hs & Hrest)]; [contradiction|].
      destruct (Hinv Hi) as (Hnf & Hnd & Hnr).
      destruct Hrest as [(e & _ & Hr)|(response & _ & Hrest)]; [contradiction|].
      destruct Hrest as [[_ Hf]|[_ Hrest]]; [exact (Hnf (ex_intro _ _ Hf))|].
      destruct Hrest as [(e & _ & Hr)|(details & _ & Hrest)]; [contradiction|].
      destruct Hrest as [(e & _ & Hr)|(process & tree & _ & Hrest)];
        [contradiction|].
      destruct Hrest as [[_ Hd]|[_ [Hrp|Hr]]];
        [exact (Hnd (ex_intro _ _ Hd))| |contradiction].
      exact (proj1 (Hrep Hrp) Hi).
    + intros Hlen.
      destruct Hcases as [[_ Hi]|(ns & n & p & Hs & _)]; [exact Hi|].
      rewrite Hs in Hlen. now contradiction Hlen.
  - (* registry failure *)
    intros e. split.
    + intros Hf.
      assert (Hfe : exists e, fetch e) by now exists e.
      destruct (Hfet Hfe) as (Hnd & Hnr).
      destruct Hcases as [[_ Hi]|(ns & n & p & Hs & Hrest)];
        [exfalso; exact (proj1 (Hinv Hi) Hfe)|].
      destruct Hrest as [(e' & _ & Hr)|(response & Hget & Hrest)]; [contradiction|].
      destruct Hrest as [[Hst Hf']|[_ Hrest]].
      * exists ns, n, p, response. repeat split; try assumption.
        exact (Hfetch1 _ _ Hf Hf').
      * exfalso.
        destruct Hrest as [(e' & _ & Hr)|(details & _ & Hrest)]; [contradiction|].
        destruct Hrest as [(e' & _ & Hr)|(process & tree & _ & Hrest)];
          [contradiction|].
        destruct Hrest as [[_ Hd]|[_ [Hrp|Hr]]];
          [exact (Hnd (ex_intro _ _ Hd))| |contradiction].
        exact (proj1 (proj2 (Hrep Hrp)) Hfe).
    + intros (ns & n & p & response & Hs & Hget & Hst & ->).
      destruct Hcases as [[Hne _]|(ns' & n' & p' & Hs' & Hrest)];
        [now rewrite Hs in Hne|].
      rewrite Hs in Hs'. injection Hs' as <- <- <-.
      destruct Hrest as [(e' & Hget' & _)|(response' & Hget' & Hrest)];
        [congruence|].
      rewrite Hget in Hget'. injection Hget' as <-.
      destruct Hrest as [[_ Hf]|[Hst' _]]; [exact Hf|contradiction].
  - (* download failure *)
    intros e. split.
    + intros Hd.
      assert (Hde : exists e, download e) by now exists e.
      pose proof (Hdow Hde) as Hnr.
      destruct Hcases as [[_ Hi]|(ns & n & p & Hs & Hrest)];
        [exfalso; exact (proj1 (proj2 (Hinv Hi)) Hde)|].
      destruct Hrest as [(e' & _ & Hr)|(response & Hget & Hrest)]; [contradiction|].
      destruct Hrest as [[_ Hf]|[Hst Hrest]];
        [exfalso; exact (proj1 (Hfet (ex_intro _ _ Hf)) Hde)|].
      destruct Hrest as [(e' & _ & Hr)|(details & Hj & Hrest)]; [contradiction|].
      destruct Hrest as [(e' & _ & Hr)|(process & tree & Hrun & Hrest)];
        [contradiction|].
      destruct Hrest as [[Hrc Hd']|[_ [Hrp|Hr]]]; [| |contradiction].
      * exists ns, n, p, response, details, process, tree.
        repeat split; try assumption. exact (Hdown1 _ _ Hd Hd').
      * exfalso. exact (proj1 (proj2 (proj2 (Hrep Hrp))) Hde).
    + intros (ns & n & p & response & details & process & tree
              & Hs & Hget & Hst & Hj & Hrun & Hrc & ->).
      destruct Hcases as [[Hne _]|(ns' & n' & p' & Hs' & Hrest)];
        [now rewrite Hs in Hne|].
      rewrite Hs in Hs'. injection Hs' as <- <- <-.
      destruct Hrest as [(e' & Hget' & _)|(response' & Hget' & Hrest)];
        [congruence|].
      rewrite Hget in Hget'. injection Hget' as <-.
      destruct Hrest as [[Hst' _]|[_ Hrest]]; [contradiction|].
      destruct Hrest as [(e' & Hj' & _)|(details' & Hj' & Hrest)]; [congruence|].
      rewrite Hj in Hj'. injection Hj' as <-.
      destruct Hrest as [(e' & Hrun' & _)|(process' & tree' & Hrun' & Hrest)];
        [congruence|].
      rewrite Hrun in Hrun'. injection Hrun' as <- <-.
      destruct Hrest as [[_ Hd]|[Hrc' _]]; [exact Hd|contradiction].
Qed.

Lemma outcome_taxonomy_witness :
  failure_with (lit "Error downloading module: ") (lit "Error: Module not found")
    (snd (analyze_module failed_download (lit "hashicorp/consul/aws"))).
Proof.
  apply (proj2 (proj2 (proj2 (proj2
           (outcome_taxonomy failed_download (lit "hashicorp/consul/aws")))))).
  exists (lit "hashicorp"), (lit "consul"), (lit "aws"),
    {| status_code := 200; text := lit "{version:1.2.0}";
       json := Ok [(lit "version", lit "1.2.0")] |},
    [(lit "version", lit "1.2.0")],
    {| returncode := 1; stderr := lit "Error: Module not found" |}, no_modules_dir.
  repeat split. discriminate.
Defined.

(** X3: a subprocess is run only for an accepted identifier that the
    registry answered with 200 and a document, and only with the argument
    list terraform init -get=true; the trace of such a call is then, in this
    order: the request, creating the scratch directory, writing main.tf with
    the manifest, running terraform init, removing the scratch directory. *)
Theorem terraform_init_within_scratch (w : World) (module_id : str)
    (cmd : list str) :
  In (SubprocessRun cmd) (fst (analyze_module w module_id)) ->
  cmd = terraform_init
  /\ exists namespace name provider response details,
       split slash module_id = [namespace; name; provider]
       /\ http_get w (details_url namespace name provider) = Ok response
       /\ status_code response = 200%Z
       /\ json response = Ok details
       /\ fst (analyze_module w module_id)
          = [HttpGet (details_url namespace name provider); MkTempDir;
             WriteFile (lit "main.tf")
               (manifest namespace name provider
                         (dict_get (lit "version") details []));
             SubprocessRun terraform_init; RmTempDir].
Proof.
  destruct (Nat.eq_dec (length (split slash module_id)) 3) as [Hlen|Hlen];
    [|rewrite (analyze_module_rejected w _ Hlen); intros []].
  destruct (split slash module_id) as [|namespace [|name [|provider [|]]]] eqn:Hs;
    try discriminate Hlen.
  rewrite (analyze_module_accepted w _ _ _ _ Hs). cbv zeta.
  destruct (http_get w _) as [response|e] eqn:Hget;
    [|intros [H|[]]; discriminate H].
  destruct (status_code response =? 200)%Z eqn:Hst;
    [|intros [H|[]]; discriminate H].
  destruct (json response) as [details|e] eqn:Hj;
    [|intros [H|[]]; discriminate H].
  apply Z.eqb_eq in Hst.
  assert (Htrace : forall r : MCPResponse,
             In (SubprocessRun cmd)
                (fst (full_trace namespace name provider
                        (dict_get (lit "version") details []), r)) ->
             cmd = terraform_init).
  { intros r [H|[H|[H|[H|[H|[]]]]]]; try discriminate H. now injection H. }
  intros H. split.
  - destruct (subprocess_run w _ _) as [[process tree]|e];
      [|exact (Htrace _ H)].
    destruct (returncode process =? 0)%Z; [|exact (Htrace _ H)].
    destruct (snd (extraction tree)); exact (Htrace _ H).
  - exists namespace, name, provider, response, details.
    repeat split; try assumption.
    destruct (subprocess_run w _ _) as [[process tree]|e]; [|reflexivity].
    destruct (returncode process =? 0)%Z; [|reflexivity].
    now destruct (snd (extraction tree)).
Qed.

Lemma terraform_init_within_scratch_witness :
  fst (analyze_module failed_download (lit "hashicorp/consul/aws"))
  = [HttpGet (details_url (lit "hashicorp") (lit "consul") (lit "aws")); MkTempDir;
     WriteFile (lit "main.tf")
       (manifest (lit "hashicorp") (lit "consul") (lit "aws") (lit "1.2.0"));
     SubprocessRun terraform_init; RmTempDir].
Proof.
  destruct (terraform_init_within_scratch failed_download
              (lit "hashicorp/consul/aws") terraform_init)
    as (_ & ns & n & p & response & details & Hs & Hget & _ & Hj & ->).
  - vm_compute. do 3 right. now left.
  - vm_compute in Hs. injection Hs as <- <- <-.
    vm_compute in Hget. injection Hget as <-. simpl in Hj. injection Hj as <-.
    reflexivity.
Defined.

(** X4: the analysis reports success only when every stage went through:
    the identifier has three segments, the registry answered 200 with a
    document, terraform init ran and exited with 0, the module directory
    was located, and each of the three files is missing or readable; the
    version reported is the one of the registry's document and the module
    data is what the files of that directory give. *)
Theorem success_only_if (w : World) (module_id : str) :
  success (metadata (snd (analyze_module w module_id))) = true ->
  exists namespace name provider response details process tree d,
    split slash module_id = [namespace; name; provider]
    /\ http_get w (details_url namespace name provider) = Ok response
    /\ status_code response = 200%Z
    /\ json response = Ok details
    /\ subprocess_run w terraform_init
         (manifest namespace name provider (dict_get (lit "version") details []))
       = Ok (process, tree)
    /\ returncode process = 0%Z
    /\ find_module_dir tree = Ok d
    /\ files_readable tree d = true
    /\ metadata (snd (analyze_module w module_id))
       = Success module_id (dict_get (lit "version") details [])
           (spec_module_data tree d).
Proof.
  destruct (metadata (snd (analyze_module w module_id)))
    as [e|mid version module_data] eqn:Hm; [discriminate|]. intros _.
  destruct (analyze_module_success_inv w _ _ _ _ Hm)
    as (ns & n & p & response & details & process & tree & d
        & Hs & Hget & Hst & Hj & Hv & Hrun & Hrc & Hd & Hr & Hmd & Hid & _).
  subst version mid module_data.
  now exists ns, n, p, response, details, process, tree, d.
Qed.

Lemma success_only_if_witness :
  exists d,
    metadata (snd (analyze_module (world_with scenario_tree)
                                  (lit "hashicorp/consul/aws")))
    = Success (lit "hashicorp/consul/aws") (lit "1.2.0")
        (spec_module_data scenario_tree d).
Proof.
  destruct (success_only_if (world_with scenario_tree) (lit "hashicorp/consul/aws"))
    as (ns & n & p & response & details & process & tree & d
        & _ & Hget & _ & Hj & Hrun & _ & _ & _ & Hm);
    [vm_compute; reflexivity|].
  simpl in Hget. injection Hget as <-. simpl in Hj. injection Hj as <-.
  simpl in Hrun. injection Hrun as _ <-. exists d. exact Hm.
Defined.

(** X5: for an accepted identifier the three segments are put together
    again as they were: the registry is asked at the base address followed
    by the identifier itself, and the source line of the manifest holds the
    identifier itself between double quotes. *)
Theorem identifier_reassembled (module_id namespace name provider version : str) :
  split slash module_id = [namespace; name; provider] ->
  details_url namespace name provider
  = lit "https://registry.terraform.io/v1/modules/" ++ module_id
  /\ manifest namespace name provider version
     = [nl] ++ lit "module " ++ [dq] ++ lit "analyzed_module" ++ [dq] ++ lit " {"
       ++ [nl] ++ lit "  source  = " ++ [dq] ++ module_id ++ [dq] ++ [nl]
       ++ lit "  version = " ++ [dq] ++ version ++ [dq] ++ [nl]
       ++ lit "}" ++ [nl].
Proof.
  intros H. apply split3_iff in H as (-> & _).
  unfold details_url, manifest. split; [reflexivity|].
  now rewrite <- !app_assoc.
Qed.

Lemma identifier_reassembled_witness :
  details_url (lit "a") [] (lit "b")
  = lit "https://registry.terraform.io/v1/modules/" ++ lit "a//b".
Proof.
  apply (identifier_reassembled (lit "a//b") (lit "a") [] (lit "b") []).
  reflexivity.
Defined.

(** ** Locating the module directory *)



(** X7: the first entry with the reference name as prefix wins even when it
    is a regular file: nothing is read then and the module data is empty,
    whatever the other entries of the modules directory hold. *)
Theorem regular_file_taken_for_module (entries : list (str * dir_entry)) (d : str) :
  find_module_dir (Ok entries) = Ok d ->
  lookup d entries = Some RegularFile ->
  snd (extraction (Ok entries))
  = Ok {| inputs := []; outputs := []; resources := []; readme := [] |}.
Proof.
  intros Hd Hfile.
  assert (Hfiles : forall file, file_at (Ok entries) d file = None).
  { intros file. unfold file_at. now rewrite Hfile. }
  rewrite (extraction_readable _ _ Hd).
  - unfold spec_module_data, file_blocks, file_text. now rewrite !Hfiles.
  - unfold files_readable. now rewrite !Hfiles.
Qed.

Lemma regular_file_taken_for_module_witness :
  snd (extraction
         (Ok [(lit "analyzed_module.json", RegularFile);
              (lit "analyzed_module.git",
               Directory [(lit "README.md", Readable (lit "read me"))])]))
  = Ok {| inputs := []; outputs := []; resources := []; readme := [] |}.
Proof.
  apply (regular_file_taken_for_module _ (lit "analyzed_module.json"));
    reflexivity.
Defined.

(** ** Blocks and their fields *)

Section MoreBlocks.

Variable k0 : char.
Variable k' : str.
Local Abbreviation keyword := (k0 :: k').

Lemma block_head_mismatch (c : char) (s : str) :
  c <> k0 -> match_at (block_pattern keyword) (c :: s) = None.
Proof.
  intros Hc. apply match_at_none. intros [[g m] t] H.
  apply block_match_inv in H as (ws1 & name & ws2 & body & _ & -> & E & _).
  unfold block_text in E. simpl in E. injection E as E _. contradiction.
Qed.

Lemma blocks_nil : blocks keyword [] = [].
Proof.
  unfold blocks, findall. simpl.
  destruct (match_at (block_pattern keyword) []) as [[[g m] t]|] eqn:E;
    [|reflexivity].
  apply match_at_in, block_match_inv in E
    as (ws1 & name & ws2 & body & _ & -> & E & _).
  unfold block_text in E. discriminate E.
Qed.

Lemma clear_before_whitespace (sep rest : str) :
  isspace k0 = false -> whitespace sep = true ->
  clear_before (block_pattern keyword) sep rest = true.
Proof.
  intros Hk. induction sep as [|c sep IH]; [reflexivity|].
  simpl. intros H. apply andb_true_iff in H as [Hc Hsep].
  rewrite block_head_mismatch; [now apply IH|]. congruence.
Qed.

Lemma blocks_in_order_aux (sep : str) (bs : list block_item) :
  isspace k0 = false -> whitespace sep = true ->
  forallb item_shape bs = true ->
  blocks keyword (blocks_text keyword sep bs) = map item_entry bs.
Proof.
  intros Hk Hsep. induction bs as [|[[[ws1 name] ws2] body] bs IH].
  - intros _. apply blocks_nil.
  - cbn [blocks_text forallb map item_shape item_entry].
    intros H. apply andb_true_iff in H as [Hb Hbs].
    destruct (blocks_hit keyword _ _ _ _
                (block_match_first keyword ws1 name ws2 body
                   (sep ++ blocks_text keyword sep bs) Hb))
      as (n & b & E & ->).
    injection E as <- <-.
    rewrite (blocks_clear keyword _ _ (clear_before_whitespace _ _ Hk Hsep)).
    now rewrite (IH Hbs).
Qed.

End MoreBlocks.

(** X8: blocks written one after the other, separated by whitespace, are
    all extracted, in the order in which they are written (for a keyword
    that does not start with whitespace, as variable and output). *)
Theorem blocks_in_order (k0 : char) (k' sep : str) (bs : list block_item) :
  isspace k0 = false -> whitespace sep = true ->
  forallb item_shape bs = true ->
  blocks (k0 :: k') (blocks_text (k0 :: k') sep bs) = map item_entry bs
  /\ length (blocks (k0 :: k') (blocks_text (k0 :: k') sep bs)) = length bs.
Proof.
  intros Hk Hsep Hbs. rewrite (blocks_in_order_aux k0 k' sep bs Hk Hsep Hbs).
  split; [reflexivity|apply length_map].
Qed.

Lemma blocks_in_order_witness :
  blocks (lit "variable") (blocks_text (lit "variable") [nl] two_variables)
  = [(lit "region", [nl] ++ lit "  type = string" ++ [nl]);
     (lit "zone", [nl] ++ lit "  type = string" ++ [nl])].
Proof.
  apply (proj1 (blocks_in_order 118%N (lit "ariable") [nl] two_variables
                  eq_refl eq_refl eq_refl)).
Defined.

Section Strip.

Lemma lstrip_stops (s : str) : stops Space (lstrip s) = true.
Proof.
  induction s as [|c s IH]; [reflexivity|]. simpl.
  destruct (isspace c) eqn:Hc; [exact IH|]. simpl. now rewrite Hc.
Qed.

Lemma lstrip_snoc (a : str) (c : char) :
  isspace c = false -> lstrip (a ++ [c]) = lstrip a ++ [c].
Proof.
  intros Hc. induction a as [|x a IH]; simpl.
  - now rewrite Hc.
  - destruct (isspace x); [exact IH|reflexivity].
Qed.

Lemma lstrip_free (c : char) (s : str) :
  free_of c s = true -> free_of c (lstrip s) = true.
Proof.
  induction s as [|x s IH]; [easy|]. simpl. intros H.
  apply andb_true_iff in H as [Hx Hs].
  destruct (isspace x); [now apply IH|]. simpl. now rewrite Hx, Hs.
Qed.

Lemma rev_free (c : char) (s : str) : free_of c (rev s) = free_of c s.
Proof.
  unfold free_of. induction s as [|x s IH]; [reflexivity|]. simpl.
  rewrite forallb_app. simpl. rewrite andb_true_r, andb_comm.
  f_equal. exact IH.
Qed.

Lemma lstrip_whitespace (s : str) : whitespace s = true -> lstrip s = [].
Proof.
  induction s as [|c s IH]; [reflexivity|]. simpl. intros H.
  apply andb_true_iff in H as [-> Hs]. now apply IH.
Qed.

Lemma strip_clean (s : str) : free_of nl s = true -> clean (strip s).
Proof.
  intros Hs. unfold clean, strip, rstrip. repeat split.
  - rewrite rev_free. apply lstrip_free. rewrite rev_free. now apply lstrip_free.
  - pose proof (lstrip_stops s) as Hl.
    destruct (lstrip s) as [|c t]; [reflexivity|]. simpl in Hl.
    apply negb_true_iff in Hl. simpl rev.
    rewrite (lstrip_snoc _ _ Hl), rev_app_distr. simpl. now rewrite Hl.
  - rewrite rev_involutive. apply lstrip_stops.
Qed.

Lemma strip_whitespace (s : str) : whitespace s = true -> strip s = [].
Proof. intros H. unfold strip. now rewrite (lstrip_whitespace _ H). Qed.

End Strip.

(** X9: what is stored for a block is well formed: a name is not empty and
    holds no double quote; a description is not empty and holds no double
    quote; a type, default or value is on one line and has no whitespace at
    either end. *)
Theorem stored_fields_well_formed :
  (forall keyword content name body,
     In (name, body) (blocks keyword content) ->
     name <> [] /\ free_of dq name = true)
  /\ (forall name block v,
        (dict_lookup (lit "description") (variable_of_block name block) = Some v
         \/ dict_lookup (lit "description") (output_of_block name block) = Some v) ->
        v <> [] /\ free_of dq v = true)
  /\ (forall name block v,
        (dict_lookup (lit "type") (variable_of_block name block) = Some v
         \/ dict_lookup (lit "default") (variable_of_block name block) = Some v
         \/ dict_lookup (lit "value") (output_of_block name block) = Some v) ->
        clean v).
Proof.
  split; [|split].
  - intros keyword content name body H.
    destruct (blocks_inv keyword _ _ _ H) as (pre & ws1 & ws2 & post & _ & Hs).
    apply block_shape_spec in Hs. tauto.
  - intros name block v H.
    assert (Hd : description_of block = Some v).
    { destruct (variable_fields name block) as (_ & Hv & _).
      destruct (output_fields name block) as (_ & Ho & _).
      destruct H as [H|H];
        [exact (eq_trans (eq_sym Hv) H) | exact (eq_trans (eq_sym Ho) H)]. }
    destruct (description_of_inv _ _ Hd) as (pre & ws1 & ws2 & post & _ & Hs & _).
    apply description_shape_spec in Hs. tauto.
  - intros name block v H.
    assert (Hl : exists attr, line_value attr block = Some v).
    { destruct (variable_fields name block) as (_ & _ & Ht & Hdef).
      destruct (output_fields name block) as (_ & _ & Hval).
      destruct H as [H|[H|H]]; eexists;
        [exact (eq_trans (eq_sym Ht) H) | exact (eq_trans (eq_sym Hdef) H)
         | exact (eq_trans (eq_sym Hval) H)]. }
    destruct Hl as (attr & Hl).
    destruct (line_value_inv attr _ _ Hl)
      as (pre & ws1 & ws2 & value & post & _ & Hs & _ & _ & ->).
    apply line_shape_spec in Hs. apply strip_clean. tauto.
Qed.

Lemma stored_fields_well_formed_witness :
  clean (lit "[1,2,3]").
Proof.
  apply (proj2 (proj2 stored_fields_well_formed) (lit "x") default_list_body).
  right. left. reflexivity.
Defined.

(** X10: when the equals sign of an attribute at its leftmost place is
    followed, up to the end of the body, by whitespace only, made of at
    least two characters of which the last is not a newline, the attribute
    is not left unset: it is stored as the empty string, and for a type the
    report then shows an empty type, not the default any. *)
Theorem blank_value_is_empty (attr pre ws1 ws2 : str) (c : char) (name : str) :
  line_shape ws1 ws2 [c] = true -> isspace c = true ->
  clear_before (line_pattern attr) pre (line_text attr ws1 ws2 [c]) = true ->
  line_value attr (pre ++ line_text attr ws1 ws2 [c]) = Some []
  /\ (attr = lit "type" ->
      dict_get (lit "type")
               (variable_of_block name (pre ++ line_text attr ws1 ws2 [c]))
               (lit "any") = []).
Proof.
  intros Hs Hc Hclear.
  assert (Hv : line_value attr (pre ++ line_text attr ws1 ws2 [c]) = Some []).
  { unfold line_value. rewrite (search_clear _ _ _ Hclear).
    destruct (match_at (line_pattern attr) (line_text attr ws1 ws2 [c]))
      as [[[g m] t]|] eqn:E.
    - rewrite (search_hit _ _ _ _ _ E). simpl.
      apply match_at_in, line_match_iff in E
        as (ws1' & ws2' & value & -> & -> & E & Hs').
      apply line_shape_spec in Hs as ((_ & Hw1) & (_ & Hw2) & _).
      apply line_shape_spec in Hs' as ((_ & Hw1') & _).
      unfold line_text in E. rewrite <- !app_assoc in E.
      apply app_inv_head in E.
      apply (run_unique isspace) in E as [<- E]; [|easy..].
      injection E as E.
      assert (Hall : whitespace (ws2 ++ [c]) = true).
      { unfold whitespace. rewrite forallb_app. simpl.
        unfold whitespace in Hw2. now rewrite Hw2, Hc. }
      rewrite E in Hall. unfold whitespace in Hall.
      rewrite !forallb_app in Hall.
      apply andb_true_iff in Hall as [_ Hall].
      apply andb_true_iff in Hall as [Hall _].
      cbv [group nth Nat.sub]. f_equal. now apply strip_whitespace.
    - exfalso. apply (proj1 (match_at_none _ _) E ([[c]], line_text attr ws1 ws2 [c], [])).
      apply line_match_iff. exists ws1, ws2, [c].
      now rewrite app_nil_r. }
  split; [exact Hv|]. intros ->.
  unfold dict_get.
  destruct (variable_fields name (pre ++ line_text (lit "type") ws1 ws2 [c]))
    as (_ & _ & -> & _).
  now rewrite Hv.
Qed.

Lemma blank_value_is_empty_witness :
  dict_get (lit "type") (variable_of_block (lit "x") blank_type_body) (lit "any")
  = [].
Proof.
  apply (proj2 (blank_value_is_empty (lit "type") ([nl] ++ lit "  ") (lit " ")
                  (lit " ") 32%N (lit "x") eq_refl eq_refl eq_refl)).
  reflexivity.
Defined.

(** X11: the README section of the report is bounded: the text shown is the
    README when that has at most 2000 characters and has exactly 2037
    characters otherwise, so never more than 2037. *)
Theorem readme_section_bounded (r : str) :
  length (truncate_readme r) <= 2037
  /\ (length r <= 2000 -> length (truncate_readme r) = length r)
  /\ (2000 < length r -> length (truncate_readme r) = 2037).
Proof.
  unfold truncate_readme, readme_limit.
  destruct (2000 <? length r) eqn:H.
  - apply Nat.ltb_lt in H.
    assert (E : length (firstn 2000 r ++ lit "..." ++ [nl; nl]
                        ++ lit "(README truncated due to length)") = 2037).
    { rewrite length_app, firstn_length_le by lia. reflexivity. }
    rewrite E. repeat split; lia.
  - apply Nat.ltb_ge in H. repeat split; lia.
Qed.

Lemma readme_section_bounded_witness :
  length (truncate_readme long_readme) = 2037.
Proof.
  apply (proj2 (proj2 (readme_section_bounded long_readme))).
  unfold long_readme. rewrite repeat_length. lia.
Defined.

(** * Module search *)

Section SearchModules.

Variable w : Search.World.
Variable query : str.
Variable provider : option str.



End SearchModules.

(** X12: a search reports success only when the request returned a
    response with status 200 whose body parsed; a response with another
    status gives the failure whose message is the fixed prefix followed by
    the response body, which is also the recorded error; and what the
    request or the parsing raises gives the response of the except
    clause. *)
Theorem search_outcome (w : Search.World) (query : str) (provider : option str) :
  let outcome := Search.http_get w Search.search_url
                   (Search.search_params query provider) in
  let result := snd (Search.search_modules w query provider) in
  (Search.success (Search.metadata result) = true ->
   exists response data,
     outcome = Ok response /\ Search.status_code response = 200%Z
     /\ Search.json response = Ok data)
  /\ (forall response,
        outcome = Ok response -> Search.status_code response <> 200%Z ->
        result = {| Search.content := lit "Error searching for modules: "
                                      ++ Search.text response;
                    Search.metadata := Search.Failure (Search.text response) |})
  /\ (forall e,
        (outcome = Raised e
         \/ exists response,
              outcome = Ok response /\ Search.status_code response = 200%Z
              /\ Search.json response = Raised e) ->
        result = Search.error_response e).
Proof.
  intros outcome result. unfold result, Search.search_modules. cbv zeta.
  fold outcome. split; [|split].
  - destruct outcome as [response|e]; [|discriminate].
    destruct (Search.status_code response =? 200)%Z eqn:Hst; [|discriminate].
    destruct (Search.json response) as [data|e] eqn:Hj; [|discriminate].
    intros _. apply Z.eqb_eq in Hst. now exists response, data.
  - intros response -> Hst. simpl. apply Z.eqb_neq in Hst. now rewrite Hst.
  - intros e [->|(response & -> & Hst & Hj)]; simpl; [reflexivity|].
    now rewrite Hst, Hj.
Qed.

Lemma search_outcome_witness :
  snd (Search.search_modules (search_world 503 None) (lit "vpc") (Some (lit "google")))
  = {| Search.content := lit "Error searching for modules: body";
       Search.metadata := Search.Failure (lit "body") |}.
Proof.
  apply (proj1 (proj2 (search_outcome (search_world 503 None) (lit "vpc")
                         (Some (lit "google"))))
           {| Search.status_code := 503; Search.text := lit "body";
              Search.json := Ok None |} eq_refl).
  discriminate.
Defined.






